(** * SimpleCache: a two-tier key/value cache (lib/simplecache.py)

    A shallow embedding of the [SimpleCache] class and of the parts of its
    environment it talks to: the Kodi window property bag (ephemeral tier),
    the sqlite table [simplecache] (persistent tier), the abort monitor, the
    clock and the log.  The class methods are written in a small
    state-and-exception monad, in the order and under the names they have in
    the Python source.

    The embedding follows one thread of control: a method runs from call to
    return with nobody else touching the shared state in between.  What the
    host decides (whether an abort is requested, whether a statement fails,
    what time it is) is read from the state, so that every run is a
    function of its initial state.  The only unbounded loop, the wait in
    [close], takes a fuel argument and reports [Diverge] when it is used up;
    the retry loop of [_execute_sql] is bounded by its own counter. *)

From Stdlib Require Import ZArith String Ascii List Lia Bool.
From Stdlib Require Import DecimalZ DecimalPos DecimalNat.
From stdpp Require Import base gmap strings list.

Set Warnings "-register-all".
Local Open Scope string_scope.
Local Open Scope Z_scope.

(** ** Python values

    The fragment of Python's object universe the cache is exercised on:
    [None], booleans, integers, text strings (code points below 256), lists
    and tuples.  Floats, dictionaries and user objects are outside it. *)

Inductive pyval : Type :=
| PNone
| PBool (b : bool)
| PInt (n : Z)
| PStr (s : string)
| PList (items : list pyval)
| PTuple (items : list pyval).

Inductive exn : Type :=
| AttributeError
| TypeError
| ValueError
| IndexError
| SyntaxError
| NameError
| OverflowError.

Inductive result (A : Type) : Type :=
| Val (a : A)
| Exc (e : exn).
Arguments Val {A} a.
Arguments Exc {A} e.

(** ** Text helpers *)

Definition code (c : ascii) : Z := Z.of_nat (nat_of_ascii c).

Definition chr (n : Z) : ascii := ascii_of_nat (Z.to_nat n).

Definition is_digit (c : ascii) : bool := (48 <=? code c) && (code c <=? 57).

Fixpoint contains_char (c : ascii) (s : string) : bool :=
  match s with
  | EmptyString => false
  | String a r => Ascii.eqb a c || contains_char c r
  end.

Definition hex_digit (n : Z) : ascii :=
  if n <? 10 then chr (48 + n) else chr (87 + n).

Definition hex_value (c : ascii) : option Z :=
  let n := code c in
  if (48 <=? n) && (n <=? 57) then Some (n - 48)
  else if (97 <=? n) && (n <=? 102) then Some (n - 87)
  else if (65 <=? n) && (n <=? 70) then Some (n - 55)
  else None.

Definition hex2 (c : ascii) : string :=
  String (hex_digit (code c / 16)) (String (hex_digit (code c mod 16)) "").

Fixpoint print_uint (u : Decimal.uint) : string :=
  match u with
  | Decimal.Nil => ""
  | Decimal.D0 r => String "0" (print_uint r)
  | Decimal.D1 r => String "1" (print_uint r)
  | Decimal.D2 r => String "2" (print_uint r)
  | Decimal.D3 r => String "3" (print_uint r)
  | Decimal.D4 r => String "4" (print_uint r)
  | Decimal.D5 r => String "5" (print_uint r)
  | Decimal.D6 r => String "6" (print_uint r)
  | Decimal.D7 r => String "7" (print_uint r)
  | Decimal.D8 r => String "8" (print_uint r)
  | Decimal.D9 r => String "9" (print_uint r)
  end.

(** [str(n)] for an integer: decimal digits, with a minus sign below zero. *)
Definition print_int (n : Z) : string :=
  match Z.to_int n with
  | Decimal.Pos u => print_uint u
  | Decimal.Neg u => String "-" (print_uint u)
  end.

Definition digit_cons (c : ascii) (u : Decimal.uint) : Decimal.uint :=
  match code c - 48 with
  | 0 => Decimal.D0 u
  | 1 => Decimal.D1 u
  | 2 => Decimal.D2 u
  | 3 => Decimal.D3 u
  | 4 => Decimal.D4 u
  | 5 => Decimal.D5 u
  | 6 => Decimal.D6 u
  | 7 => Decimal.D7 u
  | 8 => Decimal.D8 u
  | _ => Decimal.D9 u
  end.

(** The longest run of decimal digits at the head of [s], and what follows. *)
Fixpoint read_uint (s : string) : Decimal.uint * string :=
  match s with
  | EmptyString => (Decimal.Nil, "")
  | String c r =>
      if is_digit c
      then let (u, r') := read_uint r in (digit_cons c u, r')
      else (Decimal.Nil, s)
  end.

(** A digit run is a number when it is non-empty and has no leading zero,
    the single digit 0 apart.  (Python also reads a run of zeros as 0; no
    printer writes one.) *)
Definition uint_ok (u : Decimal.uint) : bool :=
  match u with
  | Decimal.Nil => false
  | Decimal.D0 Decimal.Nil => true
  | Decimal.D0 _ => false
  | _ => true
  end.

Fixpoint skip_ws (s : string) : string :=
  match s with
  | String " " r => skip_ws r
  | _ => s
  end.

Fixpoint join (sep : string) (l : list string) : string :=
  match l with
  | [] => ""
  | [x] => x
  | x :: r => x +:+ sep +:+ join sep r
  end.

Fixpoint strip_prefix (p s : string) : option string :=
  match p, s with
  | EmptyString, _ => Some s
  | String a p', String b s' => if Ascii.eqb a b then strip_prefix p' s' else None
  | String _ _, EmptyString => None
  end.

(** ** The two payload encodings

    [repr]/[eval] (the generic encoding) and [json.dumps]/[json.loads] (the
    structured one) are Python library functions.  They are modelled on the
    value fragment above as a printer and a reader of the literal syntax; the
    flag [json] selects the dialect.  The reader knows literals only: where
    Python's [eval] would run an arbitrary expression, it reports an error. *)

Definition dquote : ascii := "034"%char.
Definition squote : ascii := "039"%char.
Definition bslash : ascii := "092"%char.

Definition escape_char (json : bool) (q c : ascii) : string :=
  let n := code c in
  if Ascii.eqb c bslash then String bslash (String bslash "")
  else if Ascii.eqb c q then String bslash (String q "")
  else if n =? 10 then String bslash "n"
  else if n =? 13 then String bslash "r"
  else if n =? 9 then String bslash "t"
  else if json then
    if n =? 8 then String bslash "b"
    else if n =? 12 then String bslash "f"
    else if (n <? 32) || (126 <? n) then String bslash ("u00" +:+ hex2 c)
    else String c ""
  else
    if (n <? 32) || (n =? 127) || ((128 <=? n) && (n <=? 160)) || (n =? 173)
    then String bslash ("x" +:+ hex2 c)
    else String c "".

Fixpoint escape (json : bool) (q : ascii) (s : string) : string :=
  match s with
  | EmptyString => ""
  | String c r => escape_char json q c +:+ escape json q r
  end.

(** [repr] of a string picks double quotes when the text has a single quote
    and no double quote, single quotes otherwise; JSON always uses double
    quotes. *)
Definition quote_for (json : bool) (s : string) : ascii :=
  if json then dquote
  else if contains_char squote s && negb (contains_char dquote s) then dquote
  else squote.

Definition print_str (json : bool) (s : string) : string :=
  let q := quote_for json s in
  String q (escape json q s +:+ String q "").

Fixpoint print_val (json : bool) (v : pyval) : string :=
  match v with
  | PNone => if json then "null" else "None"
  | PBool true => if json then "true" else "True"
  | PBool false => if json then "false" else "False"
  | PInt n => print_int n
  | PStr s => print_str json s
  | PList l => "[" +:+ join ", " (map (print_val json) l) +:+ "]"
  | PTuple l =>
      if json then "[" +:+ join ", " (map (print_val json) l) +:+ "]"
      else match l with
           | [x] => "(" +:+ print_val json x +:+ ",)"
           | _ => "(" +:+ join ", " (map (print_val json) l) +:+ ")"
           end
  end.

Definition hex_pair (a b : ascii) : option ascii :=
  match hex_value a, hex_value b with
  | Some x, Some y => Some (chr (16 * x + y))
  | _, _ => None
  end.

(** The body of a string literal up to the closing quote [q]. *)
Fixpoint read_str (json : bool) (q : ascii) (s : string) : option (string * string) :=
  match s with
  | EmptyString => None
  | String c r =>
      if Ascii.eqb c q then Some ("", r)
      else if Ascii.eqb c bslash then
        match r with
        | EmptyString => None
        | String e r1 =>
            let lit (a : ascii) :=
              match read_str json q r1 with
              | Some (t, r') => Some (String a t, r')
              | None => None
              end in
            if Ascii.eqb e bslash then lit bslash
            else if Ascii.eqb e dquote then lit dquote
            else if Ascii.eqb e squote then (if json then None else lit squote)
            else if Ascii.eqb e "/" then (if json then lit "/"%char else None)
            else if Ascii.eqb e "n" then lit "010"%char
            else if Ascii.eqb e "r" then lit "013"%char
            else if Ascii.eqb e "t" then lit "009"%char
            else if Ascii.eqb e "b" then lit "008"%char
            else if Ascii.eqb e "f" then lit "012"%char
            else if Ascii.eqb e "x" then
              if json then None
              else match r1 with
                   | String h1 (String h2 r2) =>
                       match hex_pair h1 h2, read_str json q r2 with
                       | Some a, Some (t, r') => Some (String a t, r')
                       | _, _ => None
                       end
                   | _ => None
                   end
            else if Ascii.eqb e "u" then
              match r1 with
              | String z1 (String z2 (String h1 (String h2 r2))) =>
                  if Ascii.eqb z1 "0" && Ascii.eqb z2 "0" then
                    match hex_pair h1 h2, read_str json q r2 with
                    | Some a, Some (t, r') => Some (String a t, r')
                    | _, _ => None
                    end
                  else None
              | _ => None
              end
            else None
        end
      else if (if json then code c <? 32
               else (code c =? 0) || (code c =? 10) || (code c =? 13)) then None
      else match read_str json q r with
           | Some (t, r') => Some (String c t, r')
           | None => None
           end
  end.

Definition read_keyword (json : bool) (s : string) : option (pyval * string) :=
  match strip_prefix (if json then "null" else "None") s with
  | Some r => Some (PNone, r)
  | None =>
      match strip_prefix (if json then "true" else "True") s with
      | Some r => Some (PBool true, r)
      | None =>
          match strip_prefix (if json then "false" else "False") s with
          | Some r => Some (PBool false, r)
          | None => None
          end
      end
  end.

Definition read_number (neg : bool) (s : string) : option (pyval * string) :=
  let (u, r) := read_uint s in
  if uint_ok u
  then Some (PInt (if neg then - Z.of_uint u else Z.of_uint u), r)
  else None.

Fixpoint read_val (json : bool) (fuel : nat) (s : string) {struct fuel}
  : option (pyval * string) :=
  match fuel with
  | O => None
  | S f =>
      match skip_ws s with
      | EmptyString => None
      | String c r =>
          if Ascii.eqb c "[" then
            match read_items json f "]" r with
            | Some (vs, _, r') => Some (PList vs, r')
            | None => None
            end
          else if Ascii.eqb c "(" && negb json then
            match read_items json f ")" r with
            | Some ([v], false, r') => Some (v, r')
            | Some (vs, _, r') => Some (PTuple vs, r')
            | None => None
            end
          else if Ascii.eqb c dquote || (Ascii.eqb c squote && negb json) then
            match read_str json c r with
            | Some (t, r') => Some (PStr t, r')
            | None => None
            end
          else if Ascii.eqb c "-" then read_number true r
          else if is_digit c then read_number false (String c r)
          else read_keyword json (String c r)
      end
  end
with read_items (json : bool) (fuel : nat) (close : ascii) (s : string) {struct fuel}
  : option (list pyval * bool * string) :=
  match fuel with
  | O => None
  | S f =>
      match skip_ws s with
      | EmptyString => None
      | String c r =>
          if Ascii.eqb c close then Some ([], false, r)
          else
            match read_val json f s with
            | None => None
            | Some (v, r1) =>
                match skip_ws r1 with
                | EmptyString => None
                | String d r2 =>
                    if Ascii.eqb d "," then
                      match read_items json f close r2 with
                      | Some (vs, _, r3) =>
                          if json && (match vs with [] => true | _ => false end)
                          then None
                          else Some (v :: vs, true, r3)
                      | None => None
                      end
                    else if Ascii.eqb d close then Some ([v], false, r2)
                    else None
                end
            end
      end
  end.

Definition read_text (json : bool) (s : string) : option pyval :=
  match read_val json (2 * String.length s + 2) s with
  | Some (v, r) => match skip_ws r with EmptyString => Some v | _ => None end
  | None => None
  end.

Definition py_repr (v : pyval) : string := print_val false v.

Definition py_eval (s : string) : result pyval :=
  match read_text false s with
  | Some v => Val v
  | None => Exc SyntaxError
  end.

Definition json_dumps (v : pyval) : string := print_val true v.

Definition json_loads (s : string) : result pyval :=
  match read_text true s with
  | Some v => Val v
  | None => Exc ValueError
  end.

(** ** The environment

    What the class reaches through [xbmc], [xbmcgui], [sqlite3] and
    [datetime]: the window property bag, the table behind the database file,
    the abort monitor, the clock, and a trace of the effects that leave no
    other mark (log lines, waits, statement attempts).  [_busy_tasks] is a
    class attribute holding one list that every instance mutates, so it lives
    here and not in the instance. *)

Record row : Type := {
  row_id : string;
  row_expires : Z;
  row_data : string;
  row_checksum : Z
}.

(** The five statements the class sends. *)
Inductive sql : Type :=
| SelectById (id : string)
| InsertOrReplace (r : row)
| SelectAll
| DeleteById (id : string)
| Vacuum.

(** What [execute] raises when it fails: [sqlite3.OperationalError] or any
    other exception, each with its message. *)
Inductive fault : Type :=
| OperationalError (msg : string)
| OtherError (msg : string).

Definition fault_msg (f : fault) : string :=
  match f with OperationalError m => m | OtherError m => m end.

(** Effects that leave no other mark: a line given to [xbmc.log] (at
    [LOGWARNING] or at the default [LOGDEBUG]), one
    [self._monitor.waitForAbort(0.5)], one [xbmc.sleep(25)], and one attempt
    to execute a statement, successful or not. *)
Inductive event : Type :=
| EvLog (warning : bool) (msg : string)
| EvWaitForAbort
| EvSleep
| EvExecute (q : sql).

(** [props]: the window properties.  [db]: the table in the database file,
    [None] while there is no file or none with a readable table.
    [busy_tasks]: the class-level list.  [clock]: what [datetime.now()]
    returns.  [abort_script], [abort_tail]: the answers of the monitor to
    the coming calls of [abortRequested()], and the answer it gives ever
    after.  [sql_script]: per coming attempt to execute a statement, the
    failure it meets, if any; attempts beyond the script succeed. *)
Record World : Type := {
  props : gmap string string;
  db : option (list row);
  busy_tasks : list string;
  clock : Z;
  abort_script : list bool;
  abort_tail : bool;
  sql_script : list (option fault);
  trace : list event
}.

(** The instance: its three settings, the cancellation flag, whether the
    attributes [_win] and [_monitor] are bound on it, and whether it holds a
    connection. *)
Record Self : Type := {
  enable_mem_cache : bool;
  data_is_json : bool;
  global_checksum : option string;
  _exit : bool;
  _win : bool;
  _monitor : bool;
  _database : bool
}.

Record State : Type := { self : Self; world : World }.

Definition with_world (s : State) (w : World) : State :=
  {| self := self s; world := w |}.

Definition with_self (s : State) (o : Self) : State :=
  {| self := o; world := world s |}.

Definition set_props (p : gmap string string) (w : World) : World :=
  {| props := p; db := db w; busy_tasks := busy_tasks w; clock := clock w;
     abort_script := abort_script w; abort_tail := abort_tail w;
     sql_script := sql_script w; trace := trace w |}.

Definition set_db (d : option (list row)) (w : World) : World :=
  {| props := props w; db := d; busy_tasks := busy_tasks w; clock := clock w;
     abort_script := abort_script w; abort_tail := abort_tail w;
     sql_script := sql_script w; trace := trace w |}.

Definition set_busy_tasks (b : list string) (w : World) : World :=
  {| props := props w; db := db w; busy_tasks := b; clock := clock w;
     abort_script := abort_script w; abort_tail := abort_tail w;
     sql_script := sql_script w; trace := trace w |}.

Definition set_clock (t : Z) (w : World) : World :=
  {| props := props w; db := db w; busy_tasks := busy_tasks w; clock := t;
     abort_script := abort_script w; abort_tail := abort_tail w;
     sql_script := sql_script w; trace := trace w |}.

Definition set_abort_script (a : list bool) (w : World) : World :=
  {| props := props w; db := db w; busy_tasks := busy_tasks w; clock := clock w;
     abort_script := a; abort_tail := abort_tail w;
     sql_script := sql_script w; trace := trace w |}.

Definition set_sql_script (q : list (option fault)) (w : World) : World :=
  {| props := props w; db := db w; busy_tasks := busy_tasks w; clock := clock w;
     abort_script := abort_script w; abort_tail := abort_tail w;
     sql_script := q; trace := trace w |}.

Definition emit (e : event) (w : World) : World :=
  {| props := props w; db := db w; busy_tasks := busy_tasks w; clock := clock w;
     abort_script := abort_script w; abort_tail := abort_tail w;
     sql_script := sql_script w; trace := trace w ++ [e] |}.

Definition set_exit (b : bool) (o : Self) : Self :=
  {| enable_mem_cache := enable_mem_cache o; data_is_json := data_is_json o;
     global_checksum := global_checksum o; _exit := b; _win := _win o;
     _monitor := _monitor o; _database := _database o |}.

Definition set_win (b : bool) (o : Self) : Self :=
  {| enable_mem_cache := enable_mem_cache o; data_is_json := data_is_json o;
     global_checksum := global_checksum o; _exit := _exit o; _win := b;
     _monitor := _monitor o; _database := _database o |}.

Definition set_monitor (b : bool) (o : Self) : Self :=
  {| enable_mem_cache := enable_mem_cache o; data_is_json := data_is_json o;
     global_checksum := global_checksum o; _exit := _exit o; _win := _win o;
     _monitor := b; _database := _database o |}.

Definition set_database (b : bool) (o : Self) : Self :=
  {| enable_mem_cache := enable_mem_cache o; data_is_json := data_is_json o;
     global_checksum := global_checksum o; _exit := _exit o; _win := _win o;
     _monitor := _monitor o; _database := b |}.

(** ** The monad: state, exceptions, and running out of fuel *)

Inductive outcome (A : Type) : Type :=
| Ret (a : A) (s : State)
| Raise (e : exn) (s : State)
| Diverge.
Arguments Ret {A} a s.
Arguments Raise {A} e s.
Arguments Diverge {A}.

Definition M (A : Type) : Type := State -> outcome A.

Definition ret {A} (a : A) : M A := fun s => Ret a s.

Definition bind {A B} (m : M A) (k : A -> M B) : M B :=
  fun s =>
    match m s with
    | Ret a s' => k a s'
    | Raise e s' => Raise e s'
    | Diverge => Diverge
    end.

Definition raise {A} (e : exn) : M A := fun s => Raise e s.

Definition lift {A} (r : result A) : M A :=
  match r with Val a => ret a | Exc e => raise e end.

Definition get_self : M Self := fun s => Ret (self s) s.
Definition get_world : M World := fun s => Ret (world s) s.
Definition modify_self (f : Self -> Self) : M unit :=
  fun s => Ret tt (with_self s (f (self s))).
Definition modify_world (f : World -> World) : M unit :=
  fun s => Ret tt (with_world s (f (world s))).

Declare Scope cache_scope.
Delimit Scope cache_scope with cache.
Notation "x <- m ;; k" := (bind m (fun x => k))
  (at level 100, m at next level, right associativity) : cache_scope.
Notation "m ;; k" := (bind m (fun _ => k))
  (at level 100, right associativity) : cache_scope.
Local Open Scope cache_scope.

(** ** The collaborators *)

Definition truthy (s : string) : bool :=
  match s with EmptyString => false | _ => true end.

Definition lower_char (c : ascii) : ascii :=
  if (65 <=? code c) && (code c <=? 90) then chr (code c + 32) else c.

Fixpoint lower (s : string) : string :=
  match s with
  | EmptyString => ""
  | String c r => String (lower_char c) (lower r)
  end.

(** [p in s] for strings. *)
Fixpoint is_infix (p s : string) : bool :=
  match strip_prefix p s with
  | Some _ => true
  | None => match s with
            | EmptyString => false
            | String _ r => is_infix p r
            end
  end.

(** [list.remove(x)]: drops the first occurrence, [ValueError] without one. *)
Fixpoint remove_first (x : string) (l : list string) : option (list string) :=
  match l with
  | [] => None
  | y :: r =>
      if String.eqb y x then Some r
      else match remove_first x r with
           | Some r' => Some (y :: r')
           | None => None
           end
  end.

(** [reduce(f, l)] with no initial value: [TypeError] on an empty sequence. *)
Definition reduce {A} (f : A -> A -> A) (l : list A) : result A :=
  match l with
  | [] => Exc TypeError
  | x :: r => Val (fold_left f r x)
  end.

Fixpoint chars (s : string) : list ascii :=
  match s with
  | EmptyString => []
  | String c r => c :: chars r
  end.

(** [xbmcgui.Window(10000)]: a string-keyed, string-valued bag; a key never
    set reads as the empty string.  After [del self._win] the name resolves
    to the class attribute [None], and any method call on it raises. *)
Definition the_win : M unit :=
  o <- get_self ;; if _win o then ret tt else raise AttributeError.

Definition getProperty (key : string) : M string :=
  the_win ;; w <- get_world ;; ret (default "" (props w !! key)).

Definition setProperty (key value : string) : M unit :=
  the_win ;; modify_world (fun w => set_props (<[key := value]> (props w)) w).

Definition clearProperty (key : string) : M unit :=
  the_win ;; modify_world (fun w => set_props (delete key (props w)) w).

(** [xbmc.Monitor()]: each [abortRequested()] takes the next answer of the
    script, and [abort_tail] once the script is used up.  There is no class
    attribute [_monitor], so after [del self._monitor] the lookup raises. *)
Definition the_monitor : M unit :=
  o <- get_self ;; if _monitor o then ret tt else raise AttributeError.

Definition abortRequested : M bool :=
  the_monitor ;;
  w <- get_world ;;
  match abort_script w with
  | b :: rest => modify_world (set_abort_script rest) ;; ret b
  | [] => ret (abort_tail w)
  end.

Definition waitForAbort : M unit :=
  the_monitor ;; modify_world (emit EvWaitForAbort).

Definition sleep : M unit := modify_world (emit EvSleep).

Definition now : M Z := w <- get_world ;; ret (clock w).

(** The table as a list in row order; [id] is UNIQUE, so INSERT OR REPLACE
    drops the row it conflicts with and appends the new one. *)
Definition run_sql (q : sql) (t : list row) : list row * list row :=
  match q with
  | SelectById k => (t, List.filter (fun r => String.eqb (row_id r) k) t)
  | InsertOrReplace r =>
      ((List.filter (fun x => negb (String.eqb (row_id x) (row_id r))) t ++ [r])%list, [])
  | SelectAll => (t, t)
  | DeleteById k => (List.filter (fun r => negb (String.eqb (row_id r) k)) t, [])
  | Vacuum => (t, [])
  end.

(** One [_database.execute(...)] followed by [_database.commit()]: the next
    entry of [sql_script] says whether this attempt fails, and how; without a
    table the statement fails as sqlite does. *)
Definition execute (q : sql) : M (fault + list row) :=
  modify_world (emit (EvExecute q)) ;;
  w <- get_world ;;
  let run : M (fault + list row) :=
    match db w with
    | None => ret (inl (OperationalError "no such table: simplecache"))
    | Some t =>
        modify_world (set_db (Some (fst (run_sql q t)))) ;;
        ret (inr (snd (run_sql q t)))
    end in
  match sql_script w with
  | Some f :: rest => modify_world (set_sql_script rest) ;; ret (inl f)
  | None :: rest => modify_world (set_sql_script rest) ;; run
  | [] => run
  end.

(** ** The class *)

Module SimpleCache.

Definition ADDON_ID : string := "script.module.simplecache".
Definition __name__ : string := "simplecache".
(** [datetime.timedelta(hours=4)], in seconds. *)
Definition _auto_clean_interval : Z := 14400.
(** [datetime.timedelta(days=30)], the default [expiration] of [set]. *)
Definition default_expiration : Z := 2592000.

Definition _log_msg (warning : bool) (msg : string) : M unit :=
  modify_world (emit (EvLog warning ("Skin Helper Simplecache --> " +:+ msg))).

(** A [datetime] is kept as its whole-second timestamp, from the first
    second of year 1 to the last of year 9999, and a [timedelta] as a number
    of seconds.  Adding the two raises [OverflowError] when the sum leaves
    that range. *)
Definition datetime_min : Z := -62135596800.
Definition datetime_max : Z := 253402300799.

Definition datetime_add (date_time delta : Z) : result Z :=
  if (datetime_min <=? date_time + delta) && (date_time + delta <=? datetime_max)
  then Val (date_time + delta)
  else Exc OverflowError.

(** On whole-second timestamps [int(time.mktime(...))] is the identity. *)
Definition _get_timestamp (date_time : Z) : Z := date_time.

Definition _get_checksum (o : Self) (stringinput : string) : result Z :=
  let global := match global_checksum o with
                | Some g => truthy g
                | None => false
                end in
  if negb (truthy stringinput) && negb global then Val 0
  else
    let stringinput :=
      if global
      then default "" (global_checksum o) +:+ "-" +:+ stringinput
      else stringinput in
    reduce Z.add (map code (chars stringinput)).

(** The connection is kept as a flag.  Opening it validates the file with a
    query and, when that fails, deletes the file and creates the table
    anew, which leaves an empty table; the PRAGMAs have no counterpart
    here. *)
Definition _get_database : M unit :=
  o <- get_self ;;
  if _database o then ret tt
  else
    w <- get_world ;;
    match db w with
    | Some _ => ret tt
    | None => modify_world (set_db (Some []))
    end ;;
    modify_self (set_database true).

Inductive loop_end : Type :=
| Returned (result : option (list row))
| Fell (last_error : option fault).

(** The [while] loop of [_execute_sql], on [10 - retries]. *)
Fixpoint retry_loop (q : sql) (left : nat) (last_error : option fault) : M loop_end :=
  match left with
  | O => ret (Fell last_error)
  | S n =>
      stop <- abortRequested ;;
      if stop : bool then ret (Fell last_error)
      else
        o <- get_self ;;
        if _exit o then ret (Returned None)
        else
          r <- execute q ;;
          match r with
          | inr rows => ret (Returned (Some rows))
          | inl (OperationalError msg) =>
              if is_infix "locked" (lower msg)
              then _log_msg false "retrying DB commit..." ;;
                   waitForAbort ;;
                   retry_loop q n (Some (OperationalError msg))
              else ret (Fell (Some (OperationalError msg)))
          | inl (OtherError msg) => ret (Fell (Some (OtherError msg)))
          end
  end.

Definition _execute_sql (q : sql) : M (option (list row)) :=
  _get_database ;;
  e <- retry_loop q 10 None ;;
  match e with
  | Returned r => ret r
  | Fell None => ret None
  | Fell (Some err) =>
      _log_msg true ("_database ERROR ! -- " +:+ fault_msg err) ;; ret None
  end.

Definition encode (json : bool) (v : pyval) : string :=
  if json then json_dumps v else py_repr v.

Definition decode_text (json : bool) (s : string) : result pyval :=
  if json then json_loads s else py_eval s.

Definition decode (json : bool) (s : string) : M pyval :=
  lift (decode_text json s).

(** [v[i]] *)
Definition subscript (v : pyval) (i : nat) : M pyval :=
  match v with
  | PList l | PTuple l =>
      match nth_error l i with Some x => ret x | None => raise IndexError end
  | PStr s =>
      match nth_error (chars s) i with
      | Some c => ret (PStr (String c ""))
      | None => raise IndexError
      end
  | _ => raise TypeError
  end.

(** [v > n] for an integer [n]: booleans count as 0 and 1, other types do not
    compare with integers. *)
Definition greater (v : pyval) (n : Z) : M bool :=
  match v with
  | PInt a => ret (n <? a)
  | PBool b => ret (n <? (if b then 1 else 0))
  | _ => raise TypeError
  end.

(** [n == v] for an integer [n]. *)
Definition equals_int (n : Z) (v : pyval) : bool :=
  match v with
  | PInt a => n =? a
  | PBool b => n =? (if b then 1 else 0)
  | _ => false
  end.

Definition _set_mem_cache (endpoint : string) (checksum expires : Z)
    (data : pyval) (json_data : bool) : M unit :=
  o <- get_self ;;
  let cachedata := PTuple [PInt expires; data; PInt checksum] in
  setProperty endpoint (encode (json_data || data_is_json o) cachedata).

Definition _get_mem_cache (endpoint : string) (checksum cur_time : Z)
    (json_data : bool) : M pyval :=
  o <- get_self ;;
  cachedata <- getProperty endpoint ;;
  if truthy cachedata then
    cachedata <- decode (json_data || data_is_json o) cachedata ;;
    e <- subscript cachedata 0 ;;
    fresh <- greater e cur_time ;;
    if fresh : bool then
      if checksum =? 0 then subscript cachedata 1
      else
        c <- subscript cachedata 2 ;;
        if equals_int checksum c then subscript cachedata 1 else ret PNone
    else ret PNone
  else ret PNone.

Definition _get_db_cache (endpoint : string) (checksum cur_time : Z)
    (json_data : bool) : M pyval :=
  o <- get_self ;;
  cache_data <- _execute_sql (SelectById endpoint) ;;
  match cache_data with
  | Some (r :: _) =>
      if cur_time <? row_expires r then
        if (checksum =? 0) || (row_checksum r =? checksum) then
          result <- decode (json_data || data_is_json o) (row_data r) ;;
          (if enable_mem_cache o
           then _set_mem_cache endpoint checksum (row_expires r) result json_data
           else ret tt) ;;
          ret result
        else ret PNone
      else ret PNone
  | _ => ret PNone
  end.

Definition _set_db_cache (endpoint : string) (checksum expires : Z)
    (data : pyval) (json_data : bool) : M unit :=
  o <- get_self ;;
  let data := encode (json_data || data_is_json o) data in
  _execute_sql (InsertOrReplace {| row_id := endpoint; row_expires := expires;
                                   row_data := data; row_checksum := checksum |}) ;;
  ret tt.

Definition get (endpoint checksum : string) (json_data : bool) : M pyval :=
  o <- get_self ;;
  checksum <- lift (_get_checksum o checksum) ;;
  t <- now ;;
  let cur_time := _get_timestamp t in
  result <- (if enable_mem_cache o
             then _get_mem_cache endpoint checksum cur_time json_data
             else ret PNone) ;;
  match result with
  | PNone => _get_db_cache endpoint checksum cur_time json_data
  | _ => ret result
  end.

Definition busy_append (task_name : string) : M unit :=
  modify_world (fun w => set_busy_tasks (busy_tasks w ++ [task_name])%list w).

Definition busy_remove (task_name : string) : M unit :=
  w <- get_world ;;
  match remove_first task_name (busy_tasks w) with
  | Some l => modify_world (set_busy_tasks l)
  | None => raise ValueError
  end.

Definition set (endpoint : string) (data : pyval) (checksum : string)
    (expiration : Z) (json_data : bool) : M unit :=
  let task_name := "set." +:+ endpoint in
  busy_append task_name ;;
  o <- get_self ;;
  checksum <- lift (_get_checksum o checksum) ;;
  t <- now ;;
  d <- lift (datetime_add t expiration) ;;
  let expires := _get_timestamp d in
  (if enable_mem_cache o && negb (_exit o)
   then _set_mem_cache endpoint checksum expires data json_data
   else ret tt) ;;
  (if negb (_exit o)
   then _set_db_cache endpoint checksum expires data json_data
   else ret tt) ;;
  busy_remove task_name.

(** The [for] loop of [_do_cleanup]; [true] when the body hit [return]. *)
Fixpoint sweep (rows : list row) (cur_timestamp : Z) : M bool :=
  match rows with
  | [] => ret false
  | cache_data :: rest =>
      let cache_id := row_id cache_data in
      let cache_expires := row_expires cache_data in
      o <- get_self ;;
      stop <- (if _exit o then ret true else abortRequested) ;;
      if stop : bool then ret true
      else
        clearProperty cache_id ;;
        (if cache_expires <? cur_timestamp
         then _execute_sql (DeleteById cache_id) ;;
              _log_msg false ("delete from db " +:+ cache_id)
         else ret tt) ;;
        sweep rest cur_timestamp
  end.

Definition _do_cleanup : M unit :=
  o <- get_self ;;
  stop <- (if _exit o then ret true else abortRequested) ;;
  if stop : bool then ret tt
  else
    busy_append __name__ ;;
    cur_time <- now ;;
    let cur_timestamp := _get_timestamp cur_time in
    _log_msg false "Running cleanup..." ;;
    busy <- getProperty "simplecachecleanbusy" ;;
    if truthy busy then ret tt
    else
      setProperty "simplecachecleanbusy" "busy" ;;
      cursor <- _execute_sql SelectAll ;;
      returned <- match cursor with
                  | Some rows => sweep rows cur_timestamp
                  | None => ret false
                  end ;;
      if returned : bool then ret tt
      else
        _execute_sql Vacuum ;;
        busy_remove __name__ ;;
        setProperty "simplecache.clean.lastexecuted" (py_repr (PInt cur_time)) ;;
        clearProperty "simplecachecleanbusy" ;;
        _log_msg false "Auto cleanup done".

Definition check_cleanup : M unit :=
  cur_time <- now ;;
  lastexecuted <- getProperty "simplecache.clean.lastexecuted" ;;
  if negb (truthy lastexecuted)
  then setProperty "simplecache.clean.lastexecuted" (py_repr (PInt cur_time))
  else
    v <- lift (py_eval lastexecuted) ;;
    match v with
    | PInt last =>
        d <- lift (datetime_add last _auto_clean_interval) ;;
        if d <? cur_time then _do_cleanup else ret tt
    | _ => raise TypeError
    end.

Definition __init__ : M unit :=
  modify_self (set_win true) ;;
  modify_self (set_monitor true) ;;
  modify_self (set_database false) ;;
  check_cleanup ;;
  _log_msg false "Initialized".

(** The [while] loop of [close]; it ends only when the busy list is empty or
    the monitor answers that an abort is requested. *)
Fixpoint close_wait (fuel : nat) : M unit :=
  fun s =>
    match busy_tasks (world s) with
    | [] => Ret tt s
    | _ :: _ =>
        match fuel with
        | O => Diverge
        | S n =>
            (stop <- abortRequested ;;
             if stop : bool then ret tt else sleep ;; close_wait n) s
        end
    end.

Definition close (fuel : nat) : M unit :=
  modify_self (set_exit true) ;;
  close_wait fuel ;;
  o <- get_self ;;
  (if _database o then modify_self (set_database false) else ret tt) ;;
  (o <- get_self ;;
   if _win o then modify_self (set_win false) else raise AttributeError) ;;
  (o <- get_self ;;
   if _monitor o then modify_self (set_monitor false) else raise AttributeError) ;;
  _log_msg false "Closed".


End SimpleCache.


(** ** The decorator [use_cache]

    The module-level decorator derives a key from the name of the caller's
    class, the name of the wrapped function and the positional arguments,
    and goes through [get] and [set] of the caller's [cache] attribute,
    which is the engine of the state.  [func] stands for the call of the
    wrapped function with the arguments it was given; [args] are the
    positional arguments after the first. *)

Import SimpleCache.

(** [str(v)]: a string is itself, any other value of the fragment is printed
    as [repr] prints it. *)
Definition py_str (v : pyval) : string :=
  match v with
  | PStr s => s
  | _ => py_repr v
  end.

(** [u".%s" % item].  The operator takes a tuple on its right for the list of
    its arguments: with one element that element is formatted, with none or
    several the operator raises [TypeError]. *)
Definition format_item (item : pyval) : result string :=
  match item with
  | PTuple [x] => Val ("." +:+ py_str x)
  | PTuple _ => Exc TypeError
  | _ => Val ("." +:+ py_str item)
  end.

(** [str.lower()] on code points below 256: the letters A to Z and the
    accented capitals 192 to 222, the multiplication sign 215 apart. *)
Definition py_lower_char (c : ascii) : ascii :=
  let n := code c in
  if ((65 <=? n) && (n <=? 90))
     || ((192 <=? n) && (n <=? 222) && negb (n =? 215))
  then chr (n + 32) else c.

Fixpoint py_lower (s : string) : string :=
  match s with
  | EmptyString => ""
  | String c r => String (py_lower_char c) (py_lower r)
  end.

(** The [for] loop over [args[1:]]. *)
Fixpoint append_items (cache_str : string) (items : list pyval) : result string :=
  match items with
  | [] => Val cache_str
  | item :: rest =>
      match format_item item with
      | Val piece => append_items (cache_str +:+ piece) rest
      | Exc e => Exc e
      end
  end.

Definition cache_key (method_class_name func_name : string) (args : list pyval)
  : result string :=
  match append_items (method_class_name +:+ "." +:+ func_name) args with
  | Val cache_str => Val (py_lower cache_str)
  | Exc e => Exc e
  end.

(** [datetime.timedelta(days=n)], in seconds; beyond 999999999 days either
    way the constructor raises [OverflowError]. *)
Definition timedelta_days (n : Z) : result Z :=
  if (-999999999 <=? n) && (n <=? 999999999) then Val (n * 86400)
  else Exc OverflowError.

(** What [decorated] reads of its first argument: the name of its class and
    its attribute [ignore_cache], when it has one. *)
Record Caller : Type := {
  class_name : string;
  ignore_cache : option bool
}.

Definition is_none (v : pyval) : bool :=
  match v with PNone => true | _ => false end.

Definition use_cache (cache_days : Z) (func_name : string)
    (func : list pyval -> M pyval) (method_class : Caller) (args : list pyval)
    (ignore_cache_kw : bool) : M pyval :=
  cache_str <- lift (cache_key (class_name method_class) func_name args) ;;
  cachedata <- get cache_str "" false ;;
  let global_cache_ignore := default false (ignore_cache method_class) in
  if negb (is_none cachedata) && negb ignore_cache_kw && negb global_cache_ignore
  then ret cachedata
  else
    result <- func args ;;
    expiration <- lift (timedelta_days cache_days) ;;
    set cache_str result "" expiration false ;;
    ret result.

(** ** Vocabulary of the statements *)

(** The sum of the character codes of a string. *)
Definition sum_codes (s : string) : Z := fold_right Z.add 0 (map code (chars s)).

(** No global fingerprint is configured: the attribute is [None] or empty. *)
Definition no_global (o : Self) : Prop :=
  match global_checksum o with Some g => truthy g = false | None => True end.

(** The string that is hashed: the global fingerprint first, a dash, then the
    caller's checksum; the caller's checksum alone without a global one. *)
Definition composed (o : Self) (stringinput : string) : string :=
  match global_checksum o with
  | Some g => if truthy g then g +:+ "-" +:+ stringinput else stringinput
  | None => stringinput
  end.

Fixpoint all_nul (s : string) : bool :=
  match s with
  | EmptyString => true
  | String c r => (code c =? 0) && all_nul r
  end.

(** A fresh engine on an empty host: nothing cached, no database file yet,
    the clock at 1000, no abort requested, no statement failure pending. *)
Definition fresh_self : Self :=
  {| enable_mem_cache := true; data_is_json := false; global_checksum := None;
     _exit := false; _win := true; _monitor := true; _database := false |}.

Definition empty_world : World :=
  {| props := ∅; db := None; busy_tasks := []; clock := 1000;
     abort_script := []; abort_tail := false; sql_script := []; trace := [] |}.

Definition fresh : State := {| self := fresh_self; world := empty_world |}.

(** The same engine with the global fingerprint set to [v2]. *)
Definition tagged_self : Self :=
  {| enable_mem_cache := true; data_is_json := false; global_checksum := Some "v2";
     _exit := false; _win := true; _monitor := true; _database := false |}.


(** The failure sqlite reports while another writer holds the file. *)
Definition locked : fault := OperationalError "database is locked".

(** The empty host with [n] lock failures pending, then [rest]. *)
Definition contended (n : nat) (rest : list (option fault)) : World :=
  set_sql_script (map Some (repeat locked n) ++ rest)%list empty_world.

(** A timestamp [datetime] can represent. *)
Definition in_datetime_range (t : Z) : Prop := datetime_min <= t <= datetime_max.

(** Neither an abort nor a statement failure is pending. *)
Definition quiet (w : World) : Prop :=
  abort_script w = [] /\ abort_tail w = false /\ sql_script w = [].

(** The table the engine finds once connected: the one in the file, or a new
    empty one when there is no usable file and no connection yet. *)
Definition store_of (o : Self) (w : World) : option (list row) :=
  match db w with
  | Some t => Some t
  | None => if _database o then None else Some []
  end.

(** The row [SELECT ... WHERE id = ?] hands to [fetchone]. *)
Definition fetchone (endpoint : string) (t : list row) : option row :=
  head (snd (run_sql (SelectById endpoint) t)).

(** The elements of a decoded cache entry. *)
Definition items_of (x : pyval) : option (list pyval) :=
  match x with
  | PList l | PTuple l => Some l
  | _ => None
  end.

(** The validity test of the spec: not yet expired, and the requested
    checksum empty (0) or equal to the stored one. *)
Definition valid (cur_time requested expires stored : Z) : bool :=
  (cur_time <? expires) && ((requested =? 0) || (requested =? stored)).

(** The row [set] writes. *)
Definition stored_row (endpoint : string) (checksum expires : Z) (json : bool)
    (data : pyval) : row :=
  {| row_id := endpoint; row_expires := expires;
     row_data := encode json data; row_checksum := checksum |}.

(** Values an encoding gives back unchanged: JSON has no tuples and reads
    every array as a list; [repr] keeps the two apart. *)
Fixpoint no_tuple (v : pyval) : bool :=
  match v with
  | PTuple _ => false
  | PList l => forallb no_tuple l
  | _ => true
  end.

Definition storable (json : bool) (v : pyval) : bool :=
  if json then no_tuple v else true.

(** Fuel the reader needs for a printed value. *)
Fixpoint weight (v : pyval) : nat :=
  match v with
  | PList l | PTuple l => S (S (list_sum (map (fun x => S (weight x)) l)))
  | _ => 1%nat
  end.

Definition witems (l : list pyval) : nat :=
  S (list_sum (map (fun x => S (weight x)) l)).

(** What may follow a printed value: anything but a digit. *)
Definition delim (rest : string) : Prop :=
  match rest with
  | EmptyString => True
  | String c _ => is_digit c = false
  end.

Definition head_ok (c : ascii) : bool :=
  negb (Ascii.eqb c " ") && negb (Ascii.eqb c "]") && negb (Ascii.eqb c ")")
  && negb (Ascii.eqb c ",").

Definition quote_ok (json : bool) (q : ascii) : Prop :=
  q = dquote \/ (json = false /\ q = squote).

Definition close_ok (close : ascii) : Prop := close = "]"%char \/ close = ")"%char.

Definition reads_back (json : bool) (v : pyval) : Prop :=
  forall (fuel : nat) (rest : string),
    (weight v <= fuel)%nat -> delim rest ->
    read_val json fuel (print_val json v +:+ rest) = Some (v, rest).

(** A failure the loop of [_execute_sql] retries: an [OperationalError]
    whose message, in lower case, contains [locked]. *)
Definition is_locked (f : fault) : bool :=
  match f with
  | OperationalError msg => is_infix "locked" (lower msg)
  | OtherError _ => false
  end.

(** What one failed, retried attempt leaves in the trace. *)
Definition retry_round (q : sql) : list event :=
  [EvExecute q; EvLog false "Skin Helper Simplecache --> retrying DB commit...";
   EvWaitForAbort].

Fixpoint retry_events (q : sql) (n : nat) : list event :=
  match n with
  | O => []
  | S m => (retry_round q ++ retry_events q m)%list
  end.

(** [last_error] after a run of failures. *)
Definition last_fault (fs : list fault) (before : option fault) : option fault :=
  fold_left (fun _ f => Some f) fs before.

Definition warning_of (f : fault) : event :=
  EvLog true ("Skin Helper Simplecache --> _database ERROR ! -- " +:+ fault_msg f).

Definition closed_line : event := EvLog false "Skin Helper Simplecache --> Closed".

Definition add_trace (l : list event) (w : World) : World :=
  {| props := props w; db := db w; busy_tasks := busy_tasks w; clock := clock w;
     abort_script := abort_script w; abort_tail := abort_tail w;
     sql_script := sql_script w; trace := (trace w ++ l)%list |}.

(** The answer the monitor gives to the next [abortRequested()]. *)
Definition abort_now (w : World) : bool :=
  match abort_script w with
  | b :: _ => b
  | [] => abort_tail w
  end.

(** Abort queries a stretch of the sweep makes: one per row, and one more for
    the [DELETE] of an expired row. *)
Definition sweep_queries (cur_timestamp : Z) (rows : list row) : nat :=
  list_sum (map (fun r => if row_expires r <? cur_timestamp then 2%nat else 1%nat) rows).

(** The window properties once the sweep has gone over [rows]. *)
Definition cleared (rows : list row) (p : gmap string string) : gmap string string :=
  fold_left (fun p r => delete (row_id r) p) rows p.

(** The table once the sweep has gone over [rows]. *)
Definition purged (cur_timestamp : Z) (rows t : list row) : list row :=
  fold_left (fun t r => if row_expires r <? cur_timestamp
                        then fst (run_sql (DeleteById (row_id r)) t) else t) rows t.

Definition cleanup_marker : string := "simplecachecleanbusy".

(** What the tail of [close] makes of the instance: connection released,
    [_win] and [_monitor] deleted. *)
Definition closed_self (o : Self) : Self :=
  set_monitor false (set_win false (set_database false o)).

(** A computation that, from any state satisfying [P], returns normally and
    in a state satisfying [P] again. *)
Definition total_on (P : State -> Prop) {A} (m : M A) : Prop :=
  forall s, P s -> exists a s', m s = Ret a s' /\ P s'.

Definition monitored (s : State) : Prop := _monitor (self s) = true.

(** Induction on values that reaches inside lists and tuples. *)
Section PyvalInd.

Variable P : pyval -> Prop.
Hypothesis HNone : P PNone.
Hypothesis HBool : forall b, P (PBool b).
Hypothesis HInt : forall n, P (PInt n).
Hypothesis HStr : forall s, P (PStr s).
Hypothesis HList : forall l, Forall P l -> P (PList l).
Hypothesis HTuple : forall l, Forall P l -> P (PTuple l).

Fixpoint pyval_nested_ind (v : pyval) : P v :=
  let fix go (l : list pyval) : Forall P l :=
    match l with
    | [] => List.Forall_nil P
    | x :: r => @List.Forall_cons _ P x r (pyval_nested_ind x) (go r)
    end in
  match v with
  | PNone => HNone
  | PBool b => HBool b
  | PInt n => HInt n
  | PStr s => HStr s
  | PList l => HList l (go l)
  | PTuple l => HTuple l (go l)
  end.

End PyvalInd.


(** ** Vocabulary of the further properties *)

(** An engine that is open for business. *)
Definition live (o : Self) : Prop :=
  _exit o = false /\ _win o = true /\ _monitor o = true.

(** The table holds the row that [set] writes for [k], and the ephemeral
    tier, when it is enabled, holds the same entry or nothing. *)
Definition holds (json : bool) (o : Self) (w : World) (k : string) (data : pyval)
    (expires checksum : Z) : Prop :=
  (enable_mem_cache o = true ->
   props w !! k = Some (encode json (PTuple [PInt expires; data; PInt checksum])) \/
   truthy (default "" (props w !! k)) = false) /\
  exists t, store_of o w = Some t /\
            fetchone k t = Some (stored_row k checksum expires json data).

(** Neither tier has anything under [k]. *)
Definition absent (o : Self) (w : World) (k : string) : Prop :=
  truthy (default "" (props w !! k)) = false /\
  exists t, store_of o w = Some t /\ fetchone k t = None.





(** ** Proof tools *)

Arguments String.append : simpl never.

Ltac mred :=
  cbv beta iota delta
    [bind ret raise lift get_self get_world modify_self modify_world now
     the_win the_monitor getProperty setProperty clearProperty abortRequested
     waitForAbort sleep busy_append busy_remove _log_msg with_world with_self];
  simpl.

Lemma append_cons (c : ascii) (a b : string) : String c a +:+ b = String c (a +:+ b).
Proof. reflexivity. Qed.

Lemma append_nil_l (b : string) : "" +:+ b = b.
Proof. reflexivity. Qed.

(** ** The fingerprint *)

Section Checksum.

Lemma fold_left_add_sum (l : list Z) (a : Z) :
  fold_left Z.add l a = a + fold_right Z.add 0 l.
Proof.
  revert a. induction l as [|x l IH]; intros a; simpl; [lia|].
  rewrite IH. lia.
Qed.

Lemma reduce_sum_codes (s : string) :
  truthy s = true -> reduce Z.add (map code (chars s)) = Val (sum_codes s).
Proof.
  destruct s as [|c r]; [discriminate|]. intros _. unfold sum_codes. simpl.
  by rewrite fold_left_add_sum.
Qed.

Lemma code_nonneg (c : ascii) : 0 <= code c.
Proof. unfold code. lia. Qed.

Lemma sum_codes_nonneg (s : string) : 0 <= sum_codes s.
Proof.
  unfold sum_codes. induction s as [|c r IH]; simpl; [lia|].
  pose proof (code_nonneg c). lia.
Qed.

Lemma sum_codes_app (a b : string) : sum_codes (a +:+ b) = sum_codes a + sum_codes b.
Proof.
  induction a as [|c a IH]; [reflexivity|].
  rewrite append_cons. unfold sum_codes in *. simpl. lia.
Qed.

Lemma sum_codes_zero (s : string) : sum_codes s = 0 <-> all_nul s = true.
Proof.
  induction s as [|c r IH]; simpl; [done|].
  unfold sum_codes in *. simpl.
  pose proof (code_nonneg c). pose proof (sum_codes_nonneg r).
  unfold sum_codes in *. rewrite andb_true_iff, Z.eqb_eq, <- IH. lia.
Qed.

Lemma _get_checksum_eq (o : Self) (s : string) :
  _get_checksum o s =
  if negb (truthy s) && negb (truthy (default "" (global_checksum o)))
  then Val 0 else Val (sum_codes (composed o s)).
Proof.
  unfold _get_checksum, composed.
  destruct (global_checksum o) as [g|]; simpl.
  - destruct (truthy g) eqn:Hg; simpl.
    + rewrite andb_false_r. apply reduce_sum_codes. by destruct g.
    + rewrite andb_true_r. destruct (truthy s) eqn:Hs; simpl; [|done].
      by apply reduce_sum_codes.
  - rewrite andb_true_r. destruct (truthy s) eqn:Hs; simpl; [|done].
    by apply reduce_sum_codes.
Qed.

(** The hidden [TypeError] of [reduce] on an empty sequence is unreachable. *)
Lemma _get_checksum_total (o : Self) (s : string) :
  exists z, _get_checksum o s = Val z.
Proof. rewrite _get_checksum_eq. destruct (_ && _); eauto. Qed.

Lemma sum_codes_composed_zero (o : Self) (s : string) :
  sum_codes (composed o s) = 0 <-> no_global o /\ all_nul s = true.
Proof.
  unfold composed, no_global. destruct (global_checksum o) as [g|].
  - destruct (truthy g) eqn:Hg.
    + rewrite !sum_codes_app. change (sum_codes "-") with 45.
      pose proof (sum_codes_nonneg g). pose proof (sum_codes_nonneg s).
      split; [lia|]. intros [? _]; discriminate.
    + rewrite sum_codes_zero. tauto.
  - rewrite sum_codes_zero. tauto.
Qed.

(** C3, as stated, fails: with no global fingerprint, the one-character
    checksum NUL is a supplied, non-empty checksum whose effective value is
    nevertheless 0. *)
Lemma checksum_zero_not_exact :
  ~ (_get_checksum fresh_self (String "000" "") = Val 0 <->
     truthy (String "000" "") = false /\ no_global fresh_self).
Proof. intros [H _]. by destruct (H eq_refl). Qed.

(** C3 (amended): the effective checksum is 0 when the caller supplies no
    checksum and no global fingerprint is configured; otherwise it is the sum
    of the character codes of the composed string (global fingerprint first,
    a dash, the caller's checksum).  It is 0 exactly when no global
    fingerprint is configured and the caller's checksum has no character
    other than NUL, the empty checksum included. *)
Theorem checksum_rule (o : Self) (stringinput : string) :
  (truthy stringinput = false -> no_global o -> _get_checksum o stringinput = Val 0) /\
  (~ (truthy stringinput = false /\ no_global o) ->
     _get_checksum o stringinput = Val (sum_codes (composed o stringinput))) /\
  (_get_checksum o stringinput = Val 0 <->
     no_global o /\ all_nul stringinput = true).
Proof.
  rewrite _get_checksum_eq.
  assert (Hg : truthy (default "" (global_checksum o)) = false <-> no_global o).
  { unfold no_global. destruct (global_checksum o); simpl; [done|]. tauto. }
  split; [|split].
  - intros Hs Hn. apply Hg in Hn. by rewrite Hs, Hn.
  - intros Hn. destruct (truthy stringinput) eqn:Hs; simpl; [done|].
    destruct (truthy (default "" (global_checksum o))) eqn:Hd; simpl; [done|].
    exfalso. apply Hn. split; [done|]. by apply Hg.
  - destruct (negb (truthy stringinput)
              && negb (truthy (default "" (global_checksum o)))) eqn:Hc.
    + apply andb_true_iff in Hc as [Hs Hd]. apply negb_true_iff in Hs, Hd.
      split; [|done]. intros _. split; [by apply Hg|]. by destruct stringinput.
    + split.
      * intros [=H]. by apply sum_codes_composed_zero.
      * intros H. apply sum_codes_composed_zero in H. by rewrite H.
Qed.

Lemma checksum_rule_witness :
  _get_checksum fresh_self "" = Val 0 /\
  _get_checksum tagged_self "ab" = Val (sum_codes "v2-ab").
Proof.
  split.
  - apply (proj1 (checksum_rule fresh_self "")); [reflexivity | exact I].
  - apply (proj1 (proj2 (checksum_rule tagged_self "ab"))). intros [H _]. discriminate H.
Defined.

End Checksum.

(** ** The encodings give back what they were given *)

Section Codec.


Lemma append_assoc (a b c : string) : (a +:+ b) +:+ c = a +:+ (b +:+ c).
Proof. induction a as [|x a IH]; [done|]. by rewrite !append_cons, IH. Qed.

Lemma read_uint_print (u : Decimal.uint) (rest : string) :
  delim rest -> read_uint (print_uint u +:+ rest) = (u, rest).
Proof.
  intros Hd. induction u as [|u IH|u IH|u IH|u IH|u IH|u IH|u IH|u IH|u IH|u IH];
    simpl.
  1: { rewrite append_nil_l. destruct rest as [|c r]; [done|]. simpl in *. by rewrite Hd. }
  all: by rewrite IH.
Qed.

Lemma to_uint_ok (p : positive) : uint_ok (Pos.to_uint p) = true.
Proof.
  pose proof (DecimalPos.Unsigned.to_of (Pos.to_uint p)) as H.
  rewrite DecimalPos.Unsigned.of_to in H. simpl in H.
  pose proof (DecimalPos.Unsigned.to_uint_nonnil p) as Hn.
  destruct (Pos.to_uint p) as [|u|u|u|u|u|u|u|u|u|u] eqn:E; try done.
  unfold Decimal.unorm in H. simpl in H.
  destruct (Decimal.nzhead u) eqn:E'; try discriminate.
  - by inversion H.
  - exfalso. by apply (DecimalFacts.nzhead_nonzero u u0).
Qed.

Lemma of_uint_to_uint (p : positive) : Z.of_uint (Pos.to_uint p) = Z.pos p.
Proof. unfold Z.of_uint. by rewrite DecimalPos.Unsigned.of_to. Qed.

Lemma read_number_print (n : Z) (rest : string) :
  delim rest ->
  match Z.to_int n with
  | Decimal.Pos u => read_number false (print_uint u +:+ rest) = Some (PInt n, rest)
  | Decimal.Neg u => read_number true (print_uint u +:+ rest) = Some (PInt n, rest)
  end.
Proof.
  intros Hd. destruct n as [|p|p]; cbn [Z.to_int]; unfold read_number;
    rewrite read_uint_print by done.
  - reflexivity.
  - by rewrite to_uint_ok, of_uint_to_uint.
  - by rewrite to_uint_ok, of_uint_to_uint.
Qed.

Lemma print_uint_head (u : Decimal.uint) :
  u <> Decimal.Nil ->
  exists c r, print_uint u = String c r /\ is_digit c = true.
Proof. destruct u; try done; intros _; simpl; eauto. Qed.

Lemma is_digit_dispatch (c : ascii) :
  is_digit c = true ->
  Ascii.eqb c " " = false /\ Ascii.eqb c "[" = false /\ Ascii.eqb c "(" = false /\
  Ascii.eqb c dquote = false /\ Ascii.eqb c squote = false /\ Ascii.eqb c "-" = false /\
  Ascii.eqb c "]" = false /\ Ascii.eqb c ")" = false /\ Ascii.eqb c "," = false.
Proof.
  destruct c as [[] [] [] [] [] [] [] []]; vm_compute; intros H; try discriminate H; done.
Qed.

Lemma skip_ws_head (c : ascii) (r : string) :
  Ascii.eqb c " " = false -> skip_ws (String c r) = String c r.
Proof.
  destruct c as [[] [] [] [] [] [] [] []]; try reflexivity. discriminate.
Qed.

Lemma read_val_int (json : bool) (fuel : nat) (n : Z) (rest : string) :
  delim rest ->
  read_val json (S fuel) (print_int n +:+ rest) = Some (PInt n, rest).
Proof.
  intros Hd. pose proof (read_number_print n rest Hd) as H.
  unfold print_int. destruct (Z.to_int n) as [u|u] eqn:E.
  - assert (Hu : u <> Decimal.Nil).
    { destruct n; simpl in E; inversion E; try done. apply DecimalPos.Unsigned.to_uint_nonnil. }
    destruct (print_uint_head u Hu) as (c & r & Hp & Hc).
    rewrite Hp in *. rewrite append_cons in *.
    destruct (is_digit_dispatch c Hc) as (H1&H2&H3&H4&H5&H6&_).
    cbn [read_val]. rewrite (skip_ws_head c) by done.
    rewrite H2, H3, H4, H5, H6, Hc. simpl. exact H.
  - rewrite append_cons. cbn [read_val]. rewrite skip_ws_head by done.
    change (Ascii.eqb "-" "[") with false. change (Ascii.eqb "-" "(") with false.
    change (Ascii.eqb "-" dquote) with false. change (Ascii.eqb "-" squote) with false.
    change (Ascii.eqb "-" "-") with true. simpl. exact H.
Qed.

Lemma read_str_escape_char (json : bool) (q c : ascii) (rest : string) :
  quote_ok json q ->
  read_str json q (escape_char json q c +:+ rest) =
  match read_str json q rest with
  | Some (t, r') => Some (String c t, r')
  | None => None
  end.
Proof.
  intros [->|[-> ->]]; [destruct json|];
    destruct c as [[] [] [] [] [] [] [] []]; reflexivity.
Qed.

Lemma read_str_escape (json : bool) (q : ascii) (s rest : string) :
  quote_ok json q ->
  read_str json q (escape json q s +:+ String q rest) = Some (s, rest).
Proof.
  intros Hq. induction s as [|c s IH].
  - rewrite append_nil_l. simpl. destruct Hq as [->|[_ ->]]; reflexivity.
  - cbn [escape]. rewrite append_assoc, read_str_escape_char by done. by rewrite IH.
Qed.

Lemma quote_for_ok (json : bool) (s : string) : quote_ok json (quote_for json s).
Proof.
  unfold quote_for, quote_ok. destruct json; [by left|].
  destruct (_ && _); [by left|by right].
Qed.

Lemma read_val_str (json : bool) (fuel : nat) (s rest : string) :
  read_val json (S fuel) (print_str json s +:+ rest) = Some (PStr s, rest).
Proof.
  unfold print_str. pose proof (quote_for_ok json s) as Hq.
  pose proof (read_str_escape json (quote_for json s) s rest Hq) as H.
  rewrite append_cons, append_assoc, append_cons, append_nil_l.
  destruct Hq as [Hq|[-> Hq]]; rewrite Hq in *.
  - cbn [read_val]. rewrite skip_ws_head by done.
    change (Ascii.eqb dquote "[") with false.
    change (Ascii.eqb dquote "(") with false.
    change (Ascii.eqb dquote dquote) with true. cbv iota. simpl orb. cbv iota.
    by rewrite H.
  - cbn [read_val]. rewrite skip_ws_head by done.
    change (Ascii.eqb squote "[") with false.
    change (Ascii.eqb squote "(") with false.
    change (Ascii.eqb squote dquote) with false.
    change (Ascii.eqb squote squote) with true. simpl. 
    by rewrite H.
Qed.

Lemma read_val_keyword (json : bool) (fuel : nat) (v : pyval) (rest : string) :
  match v with PNone | PBool _ => True | _ => False end ->
  read_val json (S fuel) (print_val json v +:+ rest) = Some (v, rest).
Proof.
  destruct v as [|[]| | | |]; try done; intros _; destruct json; reflexivity.
Qed.

Lemma print_int_head (n : Z) :
  exists c r, print_int n = String c r /\ head_ok c = true.
Proof.
  unfold print_int. destruct (Z.to_int n) as [u|u] eqn:E.
  - assert (Hu : u <> Decimal.Nil).
    { destruct n; simpl in E; inversion E; try done. apply DecimalPos.Unsigned.to_uint_nonnil. }
    destruct (print_uint_head u Hu) as (c & r & -> & Hc).
    exists c, r. split; [done|].
    destruct (is_digit_dispatch c Hc) as (H1&_&_&_&_&_&H7&H8&H9).
    unfold head_ok. by rewrite H1, H7, H8, H9.
  - eauto.
Qed.

Lemma print_val_head (json : bool) (v : pyval) :
  exists c r, print_val json v = String c r /\ head_ok c = true.
Proof.
  destruct v as [|[]|n|s|l|l]; simpl.
  1-3: destruct json; eauto.
  - apply print_int_head.
  - unfold print_str. unfold quote_for. destruct json; [eauto|].
    destruct (_ && _); eauto.
  - eauto.
  - destruct json; [eauto|]. destruct l as [|x [|y l]]; eauto.
Qed.

Lemma read_val_skip (json : bool) (fuel : nat) (s : string) :
  read_val json fuel (String " " s) = read_val json fuel s.
Proof. destruct fuel; reflexivity. Qed.

Lemma read_items_skip (json : bool) (fuel : nat) (close : ascii) (s : string) :
  read_items json fuel close (String " " s) = read_items json fuel close s.
Proof.
  destruct fuel as [|f]; [reflexivity|]. cbn [read_items].
  change (skip_ws (String " " s)) with (skip_ws s).
  destruct (skip_ws s) as [|c r]; [reflexivity|].
  by rewrite read_val_skip.
Qed.

Lemma head_ok_elim (c close : ascii) :
  head_ok c = true -> close_ok close ->
  Ascii.eqb c " " = false /\ Ascii.eqb c close = false /\ Ascii.eqb c "," = false.
Proof.
  unfold head_ok. rewrite !andb_true_iff, !negb_true_iff.
  intros (((H1 & H2) & H3) & H4) [->| ->]; done.
Qed.

Lemma witems_cons (x : pyval) (l : list pyval) :
  witems (x :: l) = S (weight x + witems l).
Proof. unfold witems. simpl. lia. Qed.

Lemma witems_pos (l : list pyval) : (1 <= witems l)%nat.
Proof. unfold witems. lia. Qed.

Lemma read_items_print (json : bool) (l : list pyval) :
  Forall (reads_back json) l -> l <> [] ->
  forall (fuel : nat) (close : ascii) (rest : string),
    (witems l <= fuel)%nat -> close_ok close ->
    read_items json fuel close
      (join ", " (map (print_val json) l) +:+ String close rest)
    = Some (l, match l with [_] => false | _ => true end, rest).
Proof.
  induction 1 as [|x l Hx Hl IH]; [done|]. intros _ fuel close rest Hf Hc.
  rewrite witems_cons in Hf. pose proof (witems_pos l) as Hpos.
  destruct fuel as [|f]; [lia|].
  destruct (print_val_head json x) as (c & r & Hp & Hh).
  destruct (head_ok_elim c close Hh Hc) as (H1 & H2 & H3).
  destruct l as [|y l].
  - (* last item *)
    cbn [map join]. cbn [read_items]. rewrite Hp, append_cons, skip_ws_head by done.
    rewrite H2. rewrite <- append_cons, <- Hp.
    rewrite Hx; [|lia|by destruct Hc as [->| ->]].
    rewrite skip_ws_head by (by destruct Hc as [->| ->]).
    destruct Hc as [->| ->]; simpl; by rewrite ?Ascii.eqb_refl.
  - cbn [map join]. cbn [map] in IH.
    set (tail := join ", " (print_val json y :: map (print_val json) l)) in *.
    rewrite !append_assoc. cbn [read_items].
    rewrite Hp, append_cons, skip_ws_head by done.
    rewrite H2. rewrite <- append_cons, <- Hp.
    rewrite Hx; [|lia|done].
    rewrite append_cons, skip_ws_head by done.
    change (Ascii.eqb "," ",") with true. cbv iota.
    rewrite append_cons, read_items_skip, append_nil_l.
    rewrite IH; [|done| |done].
    2:{ lia. }
    by rewrite andb_false_r.
Qed.

Lemma storable_items (json : bool) (l : list pyval) (P : pyval -> Prop) :
  Forall (fun v => storable json v = true -> P v) l ->
  forallb (storable json) l = true -> Forall P l.
Proof.
  induction 1 as [|x l Hx _ IH]; simpl; [constructor|].
  rewrite andb_true_iff. intros [H1 H2]. constructor; auto.
Qed.

Lemma storable_list (json : bool) (l : list pyval) :
  storable json (PList l) = true -> forallb (storable json) l = true.
Proof. destruct json; simpl; [done|]. intros _. by induction l. Qed.

Lemma storable_tuple (json : bool) (l : list pyval) :
  storable json (PTuple l) = true -> json = false /\ forallb (storable json) l = true.
Proof. destruct json; simpl; [done|]. intros _. split; [done|]. by induction l. Qed.

Lemma read_val_bracket (json : bool) (l : list pyval) (fuel : nat)
    (open close : ascii) (rest : string) :
  Forall (reads_back json) l -> (S (witems l) <= fuel)%nat -> close_ok close ->
  exists f, fuel = S f /\
    read_items json f close
      (join ", " (map (print_val json) l) +:+ String close rest)
    = Some (l, match l with [] | [_] => false | _ => true end, rest).
Proof.
  intros Hl Hf Hc. destruct fuel as [|f]; [lia|]. exists f. split; [done|].
  destruct l as [|x l].
  - cbn [map join]. rewrite append_nil_l. pose proof (witems_pos []).
    destruct f as [|f']; [lia|]. cbn [read_items].
    rewrite skip_ws_head by (by destruct Hc as [->| ->]).
    by rewrite Ascii.eqb_refl.
  - rewrite read_items_print; [|done|done|lia|done]. by destruct l.
Qed.

Ltac norm_app :=
  rewrite ?append_assoc; repeat (rewrite append_cons || rewrite append_nil_l).

Lemma storable_reads_back (json : bool) (v : pyval) :
  storable json v = true -> reads_back json v.
Proof.
  induction v as [|b|n|s|l IH|l IH] using pyval_nested_ind; intros Hs fuel rest Hf Hd.
  - destruct fuel; [simpl in Hf; lia|]. by apply read_val_keyword.
  - destruct fuel; [simpl in Hf; lia|]. by apply read_val_keyword.
  - destruct fuel; [simpl in Hf; lia|]. by apply read_val_int.
  - destruct fuel; [simpl in Hf; lia|]. by apply read_val_str.
  - apply storable_list in Hs. pose proof (storable_items _ _ _ IH Hs) as Hl.
    change (weight (PList l)) with (S (witems l)) in Hf.
    destruct (read_val_bracket json l fuel "[" "]" rest Hl Hf) as (f & -> & Hr);
      [by left|].
    cbn [print_val]. norm_app.
    cbn [read_val]. rewrite skip_ws_head by done.
    change (Ascii.eqb "[" "[") with true. cbv iota. by rewrite Hr.
  - apply storable_tuple in Hs as [-> Hs].
    pose proof (storable_items _ _ _ IH Hs) as Hl.
    change (weight (PTuple l)) with (S (witems l)) in Hf.
    cbn [print_val]. cbv iota.
    destruct l as [|x [|y l]].
    + destruct (read_val_bracket false [] fuel "(" ")" rest Hl Hf) as (f & -> & Hr);
        [by right|].
      cbn [map join] in *. rewrite append_nil_l in Hr. norm_app.
      cbn [read_val]. rewrite skip_ws_head by done.
      change (Ascii.eqb "(" "[") with false. change (Ascii.eqb "(" "(") with true.
      cbv iota. simpl andb. cbv iota. by rewrite Hr.
    + rewrite witems_cons in Hf. pose proof (witems_pos []) as Hpos.
      destruct fuel as [|[|f]]; [lia|lia|].
      norm_app.
      cbn [read_val]. rewrite skip_ws_head by done.
      change (Ascii.eqb "(" "[") with false. change (Ascii.eqb "(" "(") with true.
      cbv iota. simpl andb. cbv iota.
      destruct (print_val_head false x) as (c & r & Hp & Hh).
      destruct (head_ok_elim c ")" Hh (or_intror eq_refl)) as (H1 & H2 & H3).
      cbn [read_items]. rewrite Hp, append_cons, skip_ws_head by done.
      rewrite H2. rewrite <- append_cons, <- Hp.
      inversion Hl as [|? ? Hx _]; subst.
      rewrite Hx; [|lia|done].
      rewrite skip_ws_head by done.
      change (Ascii.eqb "," ",") with true. cbv iota.
      destruct f as [|f]; [lia|]. cbn [read_items]. rewrite skip_ws_head by done.
      change (Ascii.eqb ")" ")") with true. cbv iota. reflexivity.
    + destruct (read_val_bracket false (x :: y :: l) fuel "(" ")" rest Hl Hf)
        as (f & -> & Hr); [by right|].
      norm_app.
      cbn [read_val]. rewrite skip_ws_head by done.
      change (Ascii.eqb "(" "[") with false. change (Ascii.eqb "(" "(") with true.
      cbv iota. simpl andb. cbv iota. by rewrite Hr.
Qed.

Lemma length_append (a b : string) :
  String.length (a +:+ b) = (String.length a + String.length b)%nat.
Proof. induction a as [|c a IH]; [done|]. rewrite append_cons. simpl. by rewrite IH. Qed.

Lemma append_nil_r (a : string) : a +:+ "" = a.
Proof. induction a as [|c a IH]; [done|]. by rewrite append_cons, IH. Qed.

Lemma print_val_length (json : bool) (v : pyval) :
  (1 <= String.length (print_val json v))%nat.
Proof. destruct (print_val_head json v) as (c & r & -> & _). simpl. lia. Qed.

Lemma witems_bound (json : bool) (l : list pyval) :
  Forall (fun v => (weight v <= 2 * String.length (print_val json v))%nat) l ->
  (witems l <= 2 * String.length (join ", " (map (print_val json) l)) + 2)%nat.
Proof.
  induction 1 as [|x l Hx _ IH]; [unfold witems; simpl; lia|].
  rewrite witems_cons. destruct l as [|y l].
  - unfold witems. cbn [map join]. simpl list_sum. lia.
  - cbn [map join] in *. rewrite !length_append. simpl String.length. lia.
Qed.

Lemma weight_bound (json : bool) (v : pyval) :
  (weight v <= 2 * String.length (print_val json v))%nat.
Proof.
  induction v as [|b|n|s|l IH|l IH] using pyval_nested_ind.
  - pose proof (print_val_length json PNone). simpl weight. lia.
  - pose proof (print_val_length json (PBool b)). simpl weight. lia.
  - pose proof (print_val_length json (PInt n)). simpl weight. lia.
  - pose proof (print_val_length json (PStr s)). simpl weight. lia.
  - pose proof (witems_bound json l IH) as Hj.
    change (weight (PList l)) with (S (witems l)). cbn [print_val].
    rewrite !length_append. simpl String.length. lia.
  - pose proof (witems_bound json l IH) as Hj.
    change (weight (PTuple l)) with (S (witems l)). cbn [print_val].
    destruct json; [rewrite !length_append; simpl String.length; lia|].
    destruct l as [|x [|y l]].
    + unfold witems. simpl. lia.
    + cbn [map join] in Hj. rewrite !length_append. simpl String.length. lia.
    + remember (join ", " (map (print_val false) (x :: y :: l))) as J.
      rewrite !length_append. simpl String.length. lia.
Qed.

Lemma codec_roundtrip (json : bool) (v : pyval) :
  storable json v = true -> decode_text json (encode json v) = Val v.
Proof.
  intros Hs.
  assert (H : read_text json (print_val json v) = Some v).
  { unfold read_text. pose proof (weight_bound json v) as Hw.
    rewrite <- (append_nil_r (print_val json v)) at 2.
    rewrite (storable_reads_back json v Hs); [done|lia|done]. }
  unfold decode_text, encode, json_loads, json_dumps, py_eval, py_repr.
  destruct json; by rewrite H.
Qed.

End Codec.

(** ** The two tiers *)

Section Tiers.

Lemma read_json_no_tuple (fuel : nat) :
  (forall s v r, read_val true fuel s = Some (v, r) -> no_tuple v = true) /\
  (forall close s vs b r,
      read_items true fuel close s = Some (vs, b, r) -> forallb no_tuple vs = true).
Proof.
  induction fuel as [|f [IHv IHi]]; [split; intros; discriminate|]. split.
  - intros s v r. cbn [read_val]. destruct (skip_ws s) as [|c t]; [discriminate|].
    destruct (Ascii.eqb c "[").
    { destruct (read_items true f "]" t) as [[[vs b] r']|] eqn:E; [|discriminate].
      intros [= <- <-]. simpl. by eapply IHi. }
    rewrite andb_false_r.
    destruct (Ascii.eqb c dquote || _).
    { destruct (read_str true c t) as [[x r']|]; [|discriminate]. by intros [= <- <-]. }
    destruct (Ascii.eqb c "-").
    { unfold read_number. destruct (read_uint t) as [u r'].
      destruct (uint_ok u); [|discriminate]. by intros [= <- <-]. }
    destruct (is_digit c).
    { unfold read_number. destruct (read_uint _) as [u r'].
      destruct (uint_ok u); [|discriminate]. by intros [= <- <-]. }
    unfold read_keyword.
    repeat (destruct (strip_prefix _ _); [by intros [= <- <-]|]). discriminate.
  - intros close s vs b r. cbn [read_items].
    destruct (skip_ws s) as [|c t]; [discriminate|].
    destruct (Ascii.eqb c close); [by intros [= <- <- <-]|].
    destruct (read_val true f s) as [[v r1]|] eqn:Ev; [|discriminate].
    destruct (skip_ws r1) as [|d r2]; [discriminate|].
    destruct (Ascii.eqb d ",").
    + destruct (read_items true f close r2) as [[[ws b'] r3]|] eqn:Ei; [|discriminate].
      destruct (_ && _); [discriminate|]. intros [= <- <- <-]. simpl.
      rewrite (IHv _ _ _ Ev). by eapply IHi.
    + destruct (Ascii.eqb d close); [|discriminate]. intros [= <- <- <-]. simpl.
      by rewrite (IHv _ _ _ Ev).
Qed.

(** Whatever a decoder returns, the same encoding can store again. *)
Lemma decoded_storable (json : bool) (text : string) (v : pyval) :
  decode_text json text = Val v -> storable json v = true.
Proof.
  destruct json; [|done]. unfold decode_text, json_loads, read_text. simpl.
  destruct (read_val true _ text) as [[x r]|] eqn:E; [|discriminate].
  destruct (skip_ws r); [|discriminate]. intros [= <-].
  by eapply (proj1 (read_json_no_tuple _)).
Qed.

(** The entry [_set_mem_cache] writes reads back as its three fields. *)
Lemma entry_roundtrip (json : bool) (e c : Z) (v : pyval) :
  storable json v = true ->
  exists x,
    decode_text json (encode json (PTuple [PInt e; v; PInt c])) = Val x /\
    items_of x = Some [PInt e; v; PInt c].
Proof.
  intros Hs. destruct json.
  - exists (PList [PInt e; v; PInt c]). split; [|done].
    change (encode true (PTuple [PInt e; v; PInt c]))
      with (encode true (PList [PInt e; v; PInt c])).
    apply codec_roundtrip. simpl in *. by rewrite Hs.
  - exists (PTuple [PInt e; v; PInt c]). split; [|done]. by apply codec_roundtrip.
Qed.

Lemma _execute_sql_ok (q : sql) (o : Self) (w : World) (t : list row) :
  _monitor o = true -> _exit o = false -> quiet w -> store_of o w = Some t ->
  _execute_sql q {| self := o; world := w |} =
  Ret (Some (snd (run_sql q t)))
      {| self := set_database true o;
         world := set_db (Some (fst (run_sql q t))) (emit (EvExecute q) w) |}.
Proof.
  intros Hm He (Ha & Hb & Hs) Ht.
  destruct o as [mem js g ex win mon dbc], w as [p d b c a at' ss tr].
  unfold store_of in Ht. simpl in *. subst.
  unfold _execute_sql, _get_database. mred.
  destruct dbc, d as [t'|]; simplify_eq; mred; unfold execute; mred; done.
Qed.

Lemma _get_mem_cache_entry (endpoint text : string) (checksum cur_time : Z)
    (json_data : bool) (o : Self) (w : World) (x p : pyval) (e c : Z)
    (more : list pyval) :
  _win o = true ->
  props w !! endpoint = Some text ->
  truthy text = true ->
  decode_text (json_data || data_is_json o) text = Val x ->
  items_of x = Some (PInt e :: p :: PInt c :: more) ->
  _get_mem_cache endpoint checksum cur_time json_data {| self := o; world := w |} =
  Ret (if valid cur_time checksum e c then p else PNone) {| self := o; world := w |}.
Proof.
  intros Hw Hp Ht Hd Hi. unfold _get_mem_cache. mred.
  rewrite Hw. mred. rewrite Hp. simpl. rewrite Ht.
  unfold decode. rewrite Hd. mred.
  unfold valid.
  destruct x; try discriminate; simpl in Hi; simplify_eq; mred;
    (destruct (cur_time <? e); simpl; [|done]);
    (destruct (checksum =? 0); simpl; [done|]);
    by destruct (checksum =? c).
Qed.

Lemma _get_mem_cache_absent (endpoint : string) (checksum cur_time : Z)
    (json_data : bool) (o : Self) (w : World) :
  _win o = true ->
  truthy (default "" (props w !! endpoint)) = false ->
  _get_mem_cache endpoint checksum cur_time json_data {| self := o; world := w |} =
  Ret PNone {| self := o; world := w |}.
Proof.
  intros Hw Hp. unfold _get_mem_cache. mred. rewrite Hw. mred. by rewrite Hp.
Qed.

Lemma _set_mem_cache_eq (endpoint : string) (checksum expires : Z) (data : pyval)
    (json_data : bool) (o : Self) (w : World) :
  _win o = true ->
  _set_mem_cache endpoint checksum expires data json_data {| self := o; world := w |} =
  Ret tt {| self := o;
            world := set_props
              (<[endpoint := encode (json_data || data_is_json o)
                               (PTuple [PInt expires; data; PInt checksum])]> (props w)) w |}.
Proof. intros Hw. unfold _set_mem_cache. mred. by rewrite Hw. Qed.

Lemma _get_db_cache_row (endpoint : string) (checksum cur_time : Z) (json_data : bool)
    (o : Self) (w : World) (t : list row) (r : row) :
  _monitor o = true -> _exit o = false -> quiet w -> store_of o w = Some t ->
  fetchone endpoint t = Some r ->
  _get_db_cache endpoint checksum cur_time json_data {| self := o; world := w |} =
  let s1 := {| self := set_database true o;
               world := emit (EvExecute (SelectById endpoint)) (set_db (Some t) w) |} in
  if valid cur_time checksum (row_expires r) (row_checksum r) then
    match decode_text (json_data || data_is_json o) (row_data r) with
    | Val result =>
        if enable_mem_cache o
        then (_set_mem_cache endpoint checksum (row_expires r) result json_data ;;
              ret result) s1
        else Ret result s1
    | Exc e => Raise e s1
    end
  else Ret PNone s1.
Proof.
  intros Hm He Hq Ht Hr. unfold _get_db_cache.
  unfold bind at 1. unfold get_self at 1. cbv beta iota.
  unfold bind at 1.
  rewrite (_execute_sql_ok _ _ _ t) by done.
  unfold fetchone in Hr. simpl in *.
  destruct (List.filter _ t) as [|r' rest]; [discriminate|]. simpl in Hr. simplify_eq.
  unfold valid. rewrite (Z.eqb_sym checksum (row_checksum r)).
  destruct (cur_time <? row_expires r); simpl; [|done].
  destruct ((checksum =? 0) || (row_checksum r =? checksum)); simpl; [|done].
  unfold decode.
  destruct (decode_text _ _) eqn:Hd; mred; [|done].
  destruct o as [mem js g ex win mon dbc]; simpl in *. destruct mem; mred; done.
Qed.

Lemma remove_first_app_perm (x : string) (l : list string) :
  exists l', remove_first x (l ++ [x]) = Some l' /\ Permutation l' l.
Proof.
  induction l as [|y l IH]; simpl.
  - rewrite String.eqb_refl. eauto.
  - destruct (String.eqb_spec y x) as [->|Hne].
    + exists (l ++ [x])%list. split; [reflexivity|].
      rewrite Permutation_app_comm. reflexivity.
    + destruct IH as (l' & -> & Hp). eexists; split; [reflexivity|]. by constructor.
Qed.

Lemma filter_id_replace (k : string) (r : row) (t : list row) :
  row_id r = k ->
  List.filter (fun x => String.eqb (row_id x) k)
    (List.filter (fun x => negb (String.eqb (row_id x) (row_id r))) t ++ [r]) = [r].
Proof.
  intros <-. rewrite List.filter_app. simpl. rewrite String.eqb_refl.
  induction t as [|x t IH]; simpl; [done|].
  destruct (String.eqb (row_id x) (row_id r)) eqn:E; simpl; [done|]. by rewrite E.
Qed.

Lemma fetchone_replace (k : string) (r : row) (t : list row) :
  row_id r = k -> fetchone k (fst (run_sql (InsertOrReplace r) t)) = Some r.
Proof. intros H. unfold fetchone. simpl. by rewrite filter_id_replace. Qed.

Lemma truthy_encode_tuple (json : bool) (l : list pyval) :
  truthy (encode json (PTuple l)) = true.
Proof.
  unfold encode, json_dumps, py_repr. destruct json; simpl; [done|].
  destruct l as [|x [|y l]]; done.
Qed.

Lemma datetime_add_in_range (t d : Z) :
  in_datetime_range (t + d) -> datetime_add t d = Val (t + d).
Proof.
  unfold in_datetime_range, datetime_add. intros [H1 H2].
  apply Z.leb_le in H1, H2. by rewrite H1, H2.
Qed.

Lemma set_live (endpoint : string) (data : pyval) (checksum : string)
    (expiration : Z) (json_data : bool) (o : Self) (w : World) (t : list row) (z : Z) :
  _exit o = false -> _win o = true -> _monitor o = true ->
  quiet w -> store_of o w = Some t ->
  _get_checksum o checksum = Val z ->
  in_datetime_range (clock w + expiration) ->
  let js := json_data || data_is_json o in
  let expires := clock w + expiration in
  let r := stored_row endpoint z expires js data in
  exists l, Permutation l (busy_tasks w) /\
    set endpoint data checksum expiration json_data {| self := o; world := w |} =
    Ret tt
      {| self := set_database true o;
         world :=
           set_busy_tasks l
             (set_db (Some (fst (run_sql (InsertOrReplace r) t)))
                (emit (EvExecute (InsertOrReplace r))
                   (set_props
                      (if enable_mem_cache o
                       then <[endpoint := encode js (PTuple [PInt expires; data; PInt z])]> (props w)
                       else props w) w))) |}.
Proof.
  intros He Hw Hm Hq Ht Hz Hr js expires r.
  destruct (remove_first_app_perm ("set." +:+ endpoint) (busy_tasks w)) as (l & Hl & Hp).
  exists l. split; [done|].
  unfold set. mred. rewrite Hz. mred. rewrite (datetime_add_in_range _ _ Hr), He. mred.
  unfold _set_db_cache, _set_mem_cache, _get_timestamp.
  destruct Hq as (Ha & Hb & Hs).
  destruct (enable_mem_cache o) eqn:Hmem; mred; rewrite ?Hw; mred;
    (erewrite _execute_sql_ok; [|done|done|by repeat split|exact Ht]);
    mred; rewrite Hl; by destruct w.
Qed.

End Tiers.

(** ** Statements sent to the store *)

Section Retry.

Lemma retry_loop_locked (q : sql) (fs : list fault) :
  forall (left : nat) (last : option fault) (o : Self) (w : World)
         (rest : list (option fault)),
    _monitor o = true -> _exit o = false ->
    abort_script w = [] -> abort_tail w = false ->
    Forall (fun f => is_locked f = true) fs ->
    (length fs <= left)%nat ->
    sql_script w = (map Some fs ++ rest)%list ->
    retry_loop q left last {| self := o; world := w |} =
    retry_loop q (left - length fs)
      (last_fault fs last)
      {| self := o;
         world := add_trace (retry_events q (length fs)) (set_sql_script rest w) |}.
Proof.
  induction fs as [|f fs IH]; intros left last o w rest Hm He Ha Hb Hl Hn Hs.
  - simpl in *. rewrite Nat.sub_0_r. destruct w; simpl in *. subst.
    unfold add_trace, set_sql_script. simpl. by rewrite app_nil_r.
  - inversion Hl as [|? ? Hf Hl']; subst. simpl in Hn.
    destruct left as [|n]; [lia|]. cbn [retry_loop]. mred.
    rewrite Hm. mred. rewrite Ha, Hb. mred. rewrite He. unfold execute. mred.
    rewrite Hs. mred.
    destruct f as [msg|msg]; simpl in Hf; [|discriminate]. rewrite Hf. mred. rewrite Hm. mred.
    rewrite (IH n _ o _ rest); try done; [|lia].
    simpl length. replace (S n - S (length fs))%nat with (n - length fs)%nat by lia.
    cbn [last_fault fold_left retry_events].
    match goal with
    | |- retry_loop _ _ _ ?a = retry_loop _ _ _ ?b => replace a with b; [reflexivity|]
    end.
    destruct w. unfold add_trace, emit, set_sql_script, retry_round. simpl.
    by rewrite <- !app_assoc.
Qed.

Lemma total_ret P {A} (a : A) : total_on P (ret a).
Proof. intros s Hs. unfold ret. eauto. Qed.

Lemma total_bind P {A B} (m : M A) (k : A -> M B) :
  total_on P m -> (forall a, total_on P (k a)) -> total_on P (bind m k).
Proof.
  intros Hm Hk s Hs. destruct (Hm s Hs) as (a & s1 & E & H1).
  destruct (Hk a s1 H1) as (b & s2 & E2 & H2).
  exists b, s2. unfold bind. by rewrite E.
Qed.

Lemma total_modify_world P (f : World -> World) :
  (forall s, P s -> P (with_world s (f (world s)))) -> total_on P (modify_world f).
Proof. intros H s Hs. unfold modify_world. eauto. Qed.

Lemma total_get_self P : total_on P get_self.
Proof. intros s Hs. unfold get_self. eauto. Qed.

Lemma total_get_world P : total_on P get_world.
Proof. intros s Hs. unfold get_world. eauto. Qed.

Lemma total_log (warning : bool) (msg : string) : total_on monitored (_log_msg warning msg).
Proof. by apply total_modify_world. Qed.

Lemma total_abortRequested : total_on monitored abortRequested.
Proof.
  intros [o w] Hs. unfold monitored in *. simpl in Hs. unfold abortRequested. mred.
  rewrite Hs. mred. destruct (abort_script w); mred; eauto.
Qed.

Lemma total_waitForAbort : total_on monitored waitForAbort.
Proof.
  intros [o w] Hs. unfold monitored in *. simpl in Hs. unfold waitForAbort. mred.
  rewrite Hs. mred. eauto.
Qed.

Lemma total_execute (q : sql) : total_on monitored (execute q).
Proof.
  intros [o w] Hs. unfold monitored in *. simpl in Hs. unfold execute. mred.
  destruct (sql_script w) as [|[f|] rest]; mred; try destruct (db w); mred; eauto.
Qed.

Lemma total_retry_loop (q : sql) (left : nat) (last : option fault) :
  total_on monitored (retry_loop q left last).
Proof.
  revert last. induction left as [|n IH]; intros last; [apply total_ret|].
  cbn [retry_loop]. apply total_bind; [apply total_abortRequested|].
  intros [|]; [apply total_ret|].
  apply total_bind; [apply total_get_self|]. intros o.
  destruct (_exit o); [apply total_ret|].
  apply total_bind; [apply total_execute|].
  intros [[msg|msg]|rows]; try apply total_ret.
  destruct (is_infix _ _); [|apply total_ret].
  apply total_bind; [apply total_log|]. intros _.
  apply total_bind; [apply total_waitForAbort|]. intros _. apply IH.
Qed.

Lemma total__get_database : total_on monitored _get_database.
Proof.
  unfold _get_database. apply total_bind; [apply total_get_self|]. intros o.
  destruct (_database o); [apply total_ret|].
  apply total_bind; [apply total_get_world|]. intros w.
  apply total_bind.
  - destruct (db w); [apply total_ret|]. by apply total_modify_world.
  - intros _. intros s Hs. unfold modify_self. eauto.
Qed.

Lemma total__execute_sql (q : sql) : total_on monitored (_execute_sql q).
Proof.
  unfold _execute_sql. apply total_bind; [apply total__get_database|]. intros _.
  apply total_bind; [apply total_retry_loop|].
  intros [r|[err|]]; try apply total_ret.
  apply total_bind; [apply total_log|]. intros _. apply total_ret.
Qed.

Lemma _get_database_eq (o : Self) (w : World) :
  _get_database {| self := o; world := w |} =
  Ret tt {| self := set_database true o;
            world := match db w with
                     | Some _ => w
                     | None => if _database o then w else set_db (Some []) w
                     end |}.
Proof.
  unfold _get_database. mred. destruct o as [a b c d e f g]; simpl.
  destruct g; mred; destruct (db w); reflexivity.
Qed.

(** C4: every statement goes through [_execute_sql]; a lock failure is
    retried after a wait of 0.5 s on the monitor, ten attempts at most; any
    other failure ends the loop at once; once the attempts are used up or
    another failure occurs, the error is logged as a warning and the result
    is [None]; and no exception of the statement reaches the caller. *)
Theorem execute_sql_retry (q : sql) (o : Self) (w : World) (fs : list fault)
    (rest : list (option fault)) :
  _monitor o = true -> _exit o = false ->
  abort_script w = [] -> abort_tail w = false ->
  Forall (fun f => is_locked f = true) fs ->
  sql_script w = (map Some fs ++ rest)%list ->
  let s := {| self := o; world := w |} in
  let retried := (trace w ++ retry_events q (length fs))%list in
  ((length fs < 10)%nat ->
   rest = [] \/ (exists rest', rest = None :: rest') ->
   forall t, store_of o w = Some t ->
   exists s', _execute_sql q s = Ret (Some (snd (run_sql q t))) s' /\
              db (world s') = Some (fst (run_sql q t)) /\
              trace (world s') = (retried ++ [EvExecute q])%list) /\
  ((length fs < 10)%nat ->
   forall f rest', rest = Some f :: rest' -> is_locked f = false ->
   exists s', _execute_sql q s = Ret None s' /\
              trace (world s') = (retried ++ [EvExecute q; warning_of f])%list) /\
  (length fs = 10%nat ->
   exists s' f, last fs = Some f /\
                _execute_sql q s = Ret None s' /\
                sql_script (world s') = rest /\
                trace (world s') = (retried ++ [warning_of f])%list) /\
  (forall s0, _monitor (self s0) = true -> exists r s', _execute_sql q s0 = Ret r s').
Proof.
  intros Hm He Ha Hb Hl Hs s retried.
  assert (Hloop : forall w1, abort_script w1 = [] -> abort_tail w1 = false ->
            sql_script w1 = sql_script w -> (length fs <= 10)%nat ->
            retry_loop q 10 None {| self := set_database true o; world := w1 |} =
            retry_loop q (10 - length fs) (last_fault fs None)
              {| self := set_database true o;
                 world := add_trace (retry_events q (length fs)) (set_sql_script rest w1) |}).
  { intros w1 H1 H2 H3 H4. apply retry_loop_locked; try done. by rewrite H3. }
  set (w1 := match db w with
             | Some _ => w
             | None => if _database o then w else set_db (Some []) w
             end).
  assert (Hw1 : abort_script w1 = [] /\ abort_tail w1 = false /\
                sql_script w1 = sql_script w /\ trace w1 = trace w /\
                (forall t, store_of o w = Some t -> db w1 = Some t)).
  { unfold w1, store_of. destruct (db w) eqn:Ed; [by repeat split; try done; congruence|].
    destruct (_database o); repeat split; try done; simpl; congruence. }
  destruct Hw1 as (Ha1 & Hb1 & Hs1 & Ht1 & Hd1).
  assert (Hexec : (length fs <= 10)%nat ->
            _execute_sql q {| self := o; world := w |} =
            (e <- retry_loop q (10 - length fs) (last_fault fs None) ;;
             match e with
             | Returned r => ret r
             | Fell None => ret None
             | Fell (Some err) =>
                 _log_msg true ("_database ERROR ! -- " +:+ fault_msg err) ;; ret None
             end)
              {| self := set_database true o;
                 world := add_trace (retry_events q (length fs))
                            (set_sql_script rest w1) |}).
  { intros Hn. unfold _execute_sql. unfold bind at 1. rewrite _get_database_eq. fold w1.
    unfold bind at 1 3. by rewrite (Hloop w1 Ha1 Hb1 Hs1 Hn). }
  subst s. split; [|split; [|split]].
  - intros Hn Hr t Ht. rewrite Hexec by lia.
    destruct (10 - length fs)%nat as [|k] eqn:Ek; [lia|].
    cbn [retry_loop]. mred. rewrite Hm. mred. rewrite Ha1, Hb1. mred. rewrite He.
    unfold execute. mred. rewrite (Hd1 t Ht).
    destruct Hr as [->|[rest' ->]]; mred; eexists; (split; [reflexivity|]); simpl;
      (split; [done|]); subst retried; by rewrite Ht1.
  - intros Hn f rest' -> Hf. rewrite Hexec by lia.
    destruct (10 - length fs)%nat as [|k] eqn:Ek; [lia|].
    cbn [retry_loop]. mred. rewrite Hm. mred. rewrite Ha1, Hb1. mred. rewrite He.
    unfold execute. mred.
    destruct f as [msg|msg]; simpl in Hf; rewrite ?Hf; mred;
      eexists; (split; [reflexivity|]); simpl; subst retried;
      rewrite Ht1, <- !app_assoc; reflexivity.
  - intros Hn. rewrite Hexec by lia.
    rewrite Hn. simpl retry_loop. mred.
    destruct fs as [|f0 fs' _] using rev_ind; [discriminate|].
    unfold last_fault. rewrite fold_left_app. simpl.
    eexists _, f0. split; [apply last_snoc|]. mred. split; [reflexivity|].
    simpl. split; [done|]. subst retried. by rewrite Ht1, Hn.
  - intros s0 H0. destruct (total__execute_sql q s0 H0) as (r & s' & E & _). eauto.
Qed.

Lemma execute_sql_retry_witness :
  (exists s',
      _execute_sql Vacuum {| self := fresh_self; world := contended 2 [] |}
        = Ret (Some []) s' /\
      db (world s') = Some [] /\
      trace (world s') = (retry_events Vacuum 2 ++ [EvExecute Vacuum])%list) /\
  (exists s' f,
      last (repeat locked 10) = Some f /\
      _execute_sql Vacuum {| self := fresh_self; world := contended 10 [None] |}
        = Ret None s' /\
      sql_script (world s') = [None] /\
      trace (world s') = (retry_events Vacuum 10 ++ [warning_of f])%list).
Proof.
  split.
  - destruct (execute_sql_retry Vacuum fresh_self (contended 2 []) (repeat locked 2) [])
      as (H & _); try reflexivity.
    + repeat constructor.
    + apply (H ltac:(simpl; lia) (or_introl eq_refl) [] eq_refl).
  - destruct (execute_sql_retry Vacuum fresh_self (contended 10 [None])
                (repeat locked 10) [None])
      as (_ & _ & H & _); try reflexivity.
    + repeat constructor.
    + apply (H eq_refl).
Defined.

End Retry.

(** ** The sweep and the shutdown *)

Section Cleanup.

Lemma _execute_sql_ok_pop (q : sql) (o : Self) (w : World) (t : list row)
    (a : list bool) :
  _monitor o = true -> _exit o = false ->
  abort_script w = false :: a -> sql_script w = [] -> store_of o w = Some t ->
  _execute_sql q {| self := o; world := w |} =
  Ret (Some (snd (run_sql q t)))
      {| self := set_database true o;
         world := set_db (Some (fst (run_sql q t)))
                    (emit (EvExecute q) (set_abort_script a w)) |}.
Proof.
  intros Hm He Ha Hs Ht.
  destruct o as [mem js g ex win mon dbc], w as [p d b c a' at' ss tr].
  unfold store_of in Ht. simpl in *. subst.
  unfold _execute_sql, _get_database. mred.
  destruct dbc, d as [t'|]; simplify_eq; mred; unfold execute; mred; done.
Qed.

Lemma sweep_abort (cur_timestamp : Z) (pre : list row) :
  forall (r : row) (post : list row) (o : Self) (w : World) (t : list row)
         (more : list bool),
    _exit o = false -> _win o = true -> _monitor o = true -> _database o = true ->
    sql_script w = [] -> db w = Some t ->
    abort_script w = (repeat false (sweep_queries cur_timestamp pre) ++ true :: more)%list ->
    exists w',
      sweep (pre ++ r :: post) cur_timestamp {| self := o; world := w |} =
        Ret true {| self := o; world := w' |} /\
      busy_tasks w' = busy_tasks w /\
      props w' = cleared pre (props w) /\
      db w' = Some (purged cur_timestamp pre t) /\
      abort_script w' = more /\ abort_tail w' = abort_tail w /\
      sql_script w' = [] /\ clock w' = clock w.
Proof.
  induction pre as [|x pre IH]; intros r post o w t more He Hw Hm Hd Hs Hdb Ha.
  - simpl in *. mred. rewrite He. mred. rewrite Hm. mred. rewrite Ha. mred.
    eexists. split; [reflexivity|]. simpl. by repeat split.
  - cbn [app sweep]. mred. rewrite He. mred. rewrite Hm. mred.
    unfold sweep_queries in Ha. cbn [map list_sum] in Ha.
    destruct (row_expires x <? cur_timestamp) eqn:Ex.
    + cbn [repeat Nat.add app] in Ha. rewrite Ha. mred. rewrite Hw. mred.
      erewrite _execute_sql_ok_pop; [|done|done|simpl; reflexivity|done|].
      2:{ unfold store_of. simpl. rewrite Hdb. reflexivity. }
      mred.
      assert (Hset : set_database true o = o) by (destruct o; simpl in *; by subst).
      rewrite Hset.
      match goal with
      | |- context [sweep _ _ {| self := _; world := ?W |}] =>
          destruct (IH r post o W (fst (run_sql (DeleteById (row_id x)) t)) more)
            as (w' & Hsw & H1 & H2 & H3 & H4 & H5 & H6 & H7); try done
      end.
      rewrite Hsw. eexists. split; [reflexivity|].
      simpl in H1, H2, H3, H5, H7.
      unfold purged, cleared in *. cbn [fold_left]. rewrite ?Ex.
      by rewrite H1, H2, H3, H4, H5, H6, H7.
    + cbn [repeat Nat.add app] in Ha. rewrite Ha. mred. rewrite Hw. mred.
      match goal with
      | |- context [sweep _ _ {| self := _; world := ?W |}] =>
          destruct (IH r post o W t more)
            as (w' & Hsw & H1 & H2 & H3 & H4 & H5 & H6 & H7); try done
      end.
      rewrite Hsw. eexists. split; [reflexivity|].
      simpl in H1, H2, H3, H5, H7.
      unfold purged, cleared in *. cbn [fold_left]. rewrite ?Ex.
      by rewrite H1, H2, H3, H4, H5, H6, H7.
Qed.
Lemma do_cleanup_marker_set (o : Self) (w : World) :
  _exit o = false -> _win o = true -> _monitor o = true ->
  abort_now w = false ->
  truthy (default "" (props w !! cleanup_marker)) = true ->
  exists s',
    _do_cleanup {| self := o; world := w |} = Ret tt s' /\
    busy_tasks (world s') = (busy_tasks w ++ [__name__])%list /\
    props (world s') = props w /\ db (world s') = db w /\
    self s' = o /\ abort_script (world s') = tail (abort_script w) /\
    abort_tail (world s') = abort_tail w.
Proof.
  intros He Hw Hm Ha Hp. unfold _do_cleanup. mred. rewrite He. mred. rewrite Hm. mred.
  unfold abort_now in Ha.
  unfold cleanup_marker in Hp.
  destruct (abort_script w) as [|b a] eqn:Es; subst; mred; rewrite ?Ha; mred;
    rewrite Hw; mred; rewrite Hp; eexists; (split; [reflexivity|]);
    simpl; rewrite ?Es; by repeat split.
Qed.

Lemma do_cleanup_abort_mid_sweep (o : Self) (w : World) (pre : list row) (r : row)
    (post : list row) (more : list bool) :
  _exit o = false -> _win o = true -> _monitor o = true ->
  sql_script w = [] ->
  store_of o w = Some (pre ++ r :: post)%list ->
  truthy (default "" (props w !! cleanup_marker)) = false ->
  abort_script w =
    (false :: false :: repeat false (sweep_queries (clock w) pre) ++ true :: more)%list ->
  exists s',
    _do_cleanup {| self := o; world := w |} = Ret tt s' /\
    busy_tasks (world s') = (busy_tasks w ++ [__name__])%list /\
    props (world s') = cleared pre (<[cleanup_marker := "busy"]> (props w)) /\
    db (world s') = Some (purged (clock w) pre (pre ++ r :: post)%list) /\
    self s' = set_database true o /\ abort_script (world s') = more /\
    abort_tail (world s') = abort_tail w.
Proof.
  intros He Hw Hm Hs Ht Hp Ha. unfold _do_cleanup. mred. rewrite He. mred.
  rewrite Hm. mred. rewrite Ha. mred. rewrite Hw. mred.
  unfold cleanup_marker in Hp. rewrite Hp. mred. rewrite Hw. mred.
  erewrite _execute_sql_ok_pop; [|done|done|simpl; reflexivity|done|exact Ht].
  unfold _get_timestamp. cbn [run_sql fst snd].
  match goal with
  | |- context [sweep _ _ {| self := ?O; world := ?W |}] =>
      destruct (sweep_abort (clock w) pre r post O W (pre ++ r :: post)%list more)
        as (w' & Hsw & H1 & H2 & H3 & H4 & H5 & _); try done
  end.
  mred. rewrite Hsw. eexists. split; [reflexivity|]. simpl in *.
  by rewrite H1, H2, H3, H4, H5.
Qed.

Lemma cleared_lookup (k : string) (rows : list row) (p : gmap string string) :
  k ∉ map row_id rows -> cleared rows p !! k = p !! k.
Proof.
  revert p. induction rows as [|x rows IH]; intros p Hk; [done|].
  simpl in Hk. apply not_elem_of_cons in Hk as [Hne Hk].
  unfold cleared in *. simpl. rewrite IH by done. by apply lookup_delete_ne.
Qed.

Lemma close_wait_self (fuel : nat) :
  forall s s', close_wait fuel s = Ret tt s' -> self s' = self s.
Proof.
  induction fuel as [|n IH]; intros [o w] s'; simpl.
  - destruct (busy_tasks w); [|discriminate]. by intros [= <-].
  - destruct (busy_tasks w); [by intros [= <-]|]. mred.
    destruct (_monitor o); mred; [|discriminate].
    destruct (abort_script w) as [|[] a]; mred;
      try destruct (abort_tail w); try (by intros [= <-]);
      intros H; by apply IH in H.
Qed.

Lemma close_wait_fires (n : nat) :
  forall (fuel : nat) (o : Self) (w : World) (more : list bool),
    _monitor o = true -> busy_tasks w <> [] ->
    abort_script w = (repeat false n ++ true :: more)%list ->
    (n < fuel)%nat ->
    close_wait fuel {| self := o; world := w |} =
    Ret tt {| self := o;
              world := add_trace (repeat EvSleep n) (set_abort_script more w) |}.
Proof.
  induction n as [|n IH]; intros fuel o w more Hm Hb Ha Hf;
    (destruct fuel as [|f]; [lia|]); simpl; 
    (destruct (busy_tasks w) eqn:Eb; [done|]); mred; rewrite Hm; mred;
    simpl in Ha; rewrite Ha; mred.
  - destruct w; simpl in *. unfold add_trace, set_abort_script. simpl.
    by rewrite app_nil_r.
  - rewrite IH with (more := more); try done; [|simpl; by rewrite Eb|lia].
    destruct w; simpl in *. unfold add_trace, set_abort_script, emit. simpl.
    by rewrite <- app_assoc.
Qed.

Lemma close_wait_never (fuel : nat) :
  forall (o : Self) (w : World),
    _monitor o = true -> busy_tasks w <> [] ->
    abort_script w = [] -> abort_tail w = false ->
    close_wait fuel {| self := o; world := w |} = Diverge.
Proof.
  induction fuel as [|f IH]; intros o w Hm Hb Ha Ht; simpl;
    (destruct (busy_tasks w) eqn:Eb; [done|]); [done|].
  mred. rewrite Hm. mred. rewrite Ha, Ht. mred.
  apply IH; simpl; try done. by rewrite Eb.
Qed.

Lemma close_eq (fuel : nat) (o : Self) (w : World) :
  close fuel {| self := o; world := w |} =
  match close_wait fuel {| self := set_exit true o; world := w |} with
  | Ret _ s1 =>
      if _win (self s1) then
        if _monitor (self s1)
        then Ret tt {| self := closed_self (self s1);
                       world := emit closed_line (world s1) |}
        else Raise AttributeError
               {| self := set_win false (set_database false (self s1));
                  world := world s1 |}
      else Raise AttributeError
             {| self := set_database false (self s1); world := world s1 |}
  | Raise e s1 => Raise e s1
  | Diverge => Diverge
  end.
Proof.
  unfold close. mred.
  destruct (close_wait fuel _) as [[] [o1 w1]| |]; try reflexivity. mred.
  destruct o1 as [a b c d e f g]; simpl.
  destruct g, e, f; mred; reflexivity.
Qed.

Lemma close_diverges (fuel : nat) (o : Self) (w : World) :
  _monitor o = true -> busy_tasks w <> [] ->
  abort_script w = [] -> abort_tail w = false ->
  close fuel {| self := o; world := w |} = Diverge.
Proof.
  intros Hm Hb Ha Ht. rewrite close_eq. by rewrite close_wait_never.
Qed.

Lemma close_on_abort (n fuel : nat) (o : Self) (w : World) (more : list bool) :
  _win o = true -> _monitor o = true -> busy_tasks w <> [] ->
  abort_script w = (repeat false n ++ true :: more)%list ->
  (n < fuel)%nat ->
  close fuel {| self := o; world := w |} =
  Ret tt {| self := closed_self (set_exit true o);
            world := emit closed_line
                       (add_trace (repeat EvSleep n) (set_abort_script more w)) |}.
Proof.
  intros Hw Hm Hb Ha Hf. rewrite close_eq.
  rewrite (close_wait_fires n fuel _ w more) by done. simpl. by rewrite Hw, Hm.
Qed.

(** C6 fails on the code.  An engine starts its sweep over a table of one
    row; the host asks for an abort while the [SELECT] runs, so the third
    answer of the monitor, the one the loop asks for, is yes.  The sweep
    returns at once: the marker [simplecachecleanbusy] is still [busy] and
    the task is still registered. *)
Theorem cleanup_abort_leaves_marker :
  let r := {| row_id := "k"; row_expires := 500; row_data := "1"; row_checksum := 0 |} in
  let w := {| props := empty; db := Some [r]; busy_tasks := []; clock := 1000;
              abort_script := [false; false]; abort_tail := true;
              sql_script := []; trace := [] |} in
  exists s',
    _do_cleanup {| self := fresh_self; world := w |} = Ret tt s' /\
    props (world s') !! cleanup_marker = Some "busy" /\
    busy_tasks (world s') = [__name__] /\
    db (world s') = Some [r].
Proof.
  intros r w.
  destruct (_do_cleanup {| self := fresh_self; world := w |}) as [[] s'| |] eqn:E;
    vm_compute in E; try discriminate E.
  exists s'. split; [reflexivity|]. injection E as <-. by vm_compute.
Qed.

(** The same for every table and every row the abort arrives at, as long as
    no row swept before it is itself named like the marker. *)
Lemma abort_mid_sweep_keeps_marker (o : Self) (w : World) (pre : list row)
    (r : row) (post : list row) (more : list bool) :
  _exit o = false -> _win o = true -> _monitor o = true ->
  sql_script w = [] ->
  store_of o w = Some (pre ++ r :: post)%list ->
  truthy (default "" (props w !! cleanup_marker)) = false ->
  abort_script w =
    (false :: false :: repeat false (sweep_queries (clock w) pre) ++ true :: more)%list ->
  cleanup_marker ∉ map row_id pre ->
  exists s',
    _do_cleanup {| self := o; world := w |} = Ret tt s' /\
    props (world s') !! cleanup_marker = Some "busy".
Proof.
  intros He Hw Hm Hs Ht Hp Ha Hk.
  destruct (do_cleanup_abort_mid_sweep o w pre r post more) as (s' & E & _ & Hpr & _);
    try done.
  exists s'. split; [done|]. rewrite Hpr, cleared_lookup by done.
  apply lookup_insert_eq.
Qed.

(** C8: [_do_cleanup] that returns because the marker is already set, or
    because the abort signal fires while it enumerates the rows, leaves its
    own entry in the shared busy list; a [close] called afterwards finds the
    list non-empty and sleeps in its loop until the monitor reports an abort
    (it never returns if none is ever reported). *)
Theorem cleanup_early_return_leaks_busy_task (o : Self) (w : World) :
  _exit o = false -> _win o = true -> _monitor o = true ->
  (abort_now w = false ->
   truthy (default "" (props w !! cleanup_marker)) = true ->
   exists s',
     _do_cleanup {| self := o; world := w |} = Ret tt s' /\
     self s' = o /\
     abort_script (world s') = tail (abort_script w) /\
     abort_tail (world s') = abort_tail w /\
     busy_tasks (world s') = (busy_tasks w ++ [__name__])%list) /\
  (forall (pre : list row) (r : row) (post : list row) (more : list bool),
      sql_script w = [] ->
      store_of o w = Some (pre ++ r :: post)%list ->
      truthy (default "" (props w !! cleanup_marker)) = false ->
      abort_script w =
        (false :: false :: repeat false (sweep_queries (clock w) pre)
           ++ true :: more)%list ->
      exists s',
        _do_cleanup {| self := o; world := w |} = Ret tt s' /\
        self s' = set_database true o /\
        abort_script (world s') = more /\
        abort_tail (world s') = abort_tail w /\
        busy_tasks (world s') = (busy_tasks w ++ [__name__])%list) /\
  (forall (s' : State) (task : string) (tasks : list string),
      _win (self s') = true -> _monitor (self s') = true ->
      busy_tasks (world s') = (tasks ++ [task])%list ->
      (abort_script (world s') = [] -> abort_tail (world s') = false ->
       forall fuel, close fuel s' = Diverge) /\
      (forall (n fuel : nat) (more : list bool),
          abort_script (world s') = (repeat false n ++ true :: more)%list ->
          (n < fuel)%nat ->
          exists s'',
            close fuel s' = Ret tt s'' /\
            trace (world s'') =
              (trace (world s') ++ repeat EvSleep n ++ [closed_line])%list)).
Proof.
  intros He Hw Hm. split; [|split].
  - intros Ha Hp.
    destruct (do_cleanup_marker_set o w) as (s' & E & Hb & _ & _ & Hs & H1 & H2);
      eauto 10.
  - intros pre r post more Hs Ht Hp Ha.
    destruct (do_cleanup_abort_mid_sweep o w pre r post more)
      as (s' & E & Hb & _ & _ & Hs' & H1 & H2); eauto 10.
  - intros [o' w'] task tasks Hw' Hm' Hb. simpl in *.
    assert (Hne : busy_tasks w' <> []) by (rewrite Hb; by destruct tasks).
    split.
    + intros Ha Ht fuel. by apply close_diverges.
    + intros n fuel more Ha Hf. rewrite (close_on_abort n fuel o' w' more) by done.
      eexists. split; [reflexivity|]. simpl. by rewrite <- app_assoc.
Qed.

Lemma cleanup_early_return_leaks_busy_task_witness :
  let marked := set_props {[ cleanup_marker := "busy" ]} empty_world in
  exists s',
    _do_cleanup {| self := fresh_self; world := marked |} = Ret tt s' /\
    busy_tasks (world s') = [__name__] /\
    forall fuel, close fuel s' = Diverge.
Proof.
  intros marked.
  destruct (cleanup_early_return_leaks_busy_task fresh_self marked
              eq_refl eq_refl eq_refl) as (Ha & _ & Hc).
  destruct (Ha eq_refl eq_refl) as (s' & E & Hs & H1 & H2 & Hb).
  exists s'. split; [exact E|]. split; [exact Hb|].
  intros fuel.
  assert (Hwin : _win (self s') = true) by (rewrite Hs; reflexivity).
  assert (Hmon : _monitor (self s') = true) by (rewrite Hs; reflexivity).
  exact (proj1 (Hc s' __name__ [] Hwin Hmon Hb) H1 H2 fuel).
Defined.


(** The first half of the same fact, for every engine: after a completed
    [close()] a second one raises, at [self._monitor] when tasks are still
    registered and at [del self._win] otherwise. *)
Lemma second_close_raises (fuel fuel' : nat) (s s1 : State) :
  close fuel s = Ret tt s1 ->
  exists s2, close (S fuel') s1 = Raise AttributeError s2.
Proof.
  destruct s as [o w]. rewrite close_eq.
  destruct (close_wait fuel _) as [[] [o1 w1]| |] eqn:E; try discriminate.
  simpl. destruct (_win o1); [|discriminate]. destruct (_monitor o1); [|discriminate].
  intros [= <-]. rewrite close_eq. cbn [close_wait]. simpl.
  destruct (busy_tasks w1); simpl; [eauto|]. mred. eauto.
Qed.



End Cleanup.

(** ** [get] and [set] *)

Section GetSet.

Lemma quiet_after (w w' : World) :
  quiet w -> abort_script w' = abort_script w -> abort_tail w' = abort_tail w ->
  sql_script w' = sql_script w -> quiet w'.
Proof. intros (H1 & H2 & H3) E1 E2 E3. unfold quiet. by rewrite E1, E2, E3. Qed.

Lemma _get_checksum_none (o : Self) : no_global o -> _get_checksum o "" = Val 0.
Proof.
  intros H. rewrite _get_checksum_eq. unfold no_global in H.
  destruct (global_checksum o); simpl; [by rewrite H|done].
Qed.

Lemma _get_db_cache_hit (endpoint : string) (checksum cur_time : Z) (json_data : bool)
    (o : Self) (w : World) (t : list row) (r : row) (p : pyval) :
  _exit o = false -> _win o = true -> _monitor o = true ->
  quiet w -> store_of o w = Some t -> fetchone endpoint t = Some r ->
  valid cur_time checksum (row_expires r) (row_checksum r) = true ->
  decode_text (json_data || data_is_json o) (row_data r) = Val p ->
  _get_db_cache endpoint checksum cur_time json_data {| self := o; world := w |} =
  Ret p {| self := set_database true o;
           world :=
             set_props
               (if enable_mem_cache o
                then <[endpoint := encode (json_data || data_is_json o)
                                     (PTuple [PInt (row_expires r); p; PInt checksum])]>
                       (props w)
                else props w)
               (emit (EvExecute (SelectById endpoint)) (set_db (Some t) w)) |}.
Proof.
  intros He Hw Hm Hq Ht Hr Hv Hd.
  erewrite _get_db_cache_row by done. cbv zeta. rewrite Hv, Hd.
  destruct (enable_mem_cache o) eqn:Hmem.
  - unfold bind. rewrite _set_mem_cache_eq by done. by destruct w.
  - by destruct w.
Qed.

Lemma _get_db_cache_norow (endpoint : string) (checksum cur_time : Z) (json_data : bool)
    (o : Self) (w : World) (t : list row) :
  _monitor o = true -> _exit o = false -> quiet w -> store_of o w = Some t ->
  fetchone endpoint t = None ->
  _get_db_cache endpoint checksum cur_time json_data {| self := o; world := w |} =
  Ret PNone {| self := set_database true o;
               world := emit (EvExecute (SelectById endpoint)) (set_db (Some t) w) |}.
Proof.
  intros Hm He Hq Ht Hr. unfold _get_db_cache.
  unfold bind at 1. unfold get_self at 1. cbv beta iota.
  unfold bind at 1.
  rewrite (_execute_sql_ok _ _ _ t) by done.
  unfold fetchone in Hr. simpl in *.
  destruct (List.filter _ t) as [|r' rest]; [|discriminate]. by destruct w.
Qed.






(** C7: once the cancellation flag is set, [set] writes to neither tier,
    sends nothing to the store, raises nothing and returns; it only
    registers and deregisters its task, which leaves the busy list with the
    same entries. *)
Theorem set_after_close_is_noop (endpoint : string) (data : pyval) (checksum : string)
    (expiration : Z) (json_data : bool) (s : State) :
  _exit (self s) = true ->
  in_datetime_range (clock (world s) + expiration) ->
  exists s',
    set endpoint data checksum expiration json_data s = Ret tt s' /\
    self s' = self s /\
    props (world s') = props (world s) /\
    db (world s') = db (world s) /\
    trace (world s') = trace (world s) /\
    Permutation (busy_tasks (world s')) (busy_tasks (world s)).
Proof.
  intros Hexit Hr. destruct s as [o w]. simpl in *.
  destruct (_get_checksum_total o checksum) as [z Hz].
  destruct (remove_first_app_perm ("set." +:+ endpoint) (busy_tasks w))
    as (l' & Hl & Hp).
  unfold set. mred. rewrite Hz. mred.
  rewrite (datetime_add_in_range _ _ Hr), Hexit, andb_false_r. mred.
  rewrite Hl. eexists. split; [reflexivity|]. simpl. auto.
Qed.

Lemma set_after_close_is_noop_witness :
  exists s1 s',
    close 0 fresh = Ret tt s1 /\
    set "k" (PInt 7) "" default_expiration false s1 = Ret tt s' /\
    self s' = self s1 /\
    props (world s') = props (world s1) /\
    db (world s') = db (world s1) /\
    trace (world s') = trace (world s1) /\
    Permutation (busy_tasks (world s')) (busy_tasks (world s1)).
Proof.
  eexists.
  destruct (set_after_close_is_noop "k" (PInt 7) "" default_expiration false
              {| self := closed_self (set_exit true fresh_self);
                 world := emit closed_line empty_world |} eq_refl
              ltac:(by vm_compute))
    as (s' & H).
  exists s'. split; [reflexivity|exact H].
Defined.

(** C9: a valid hit in the persistent tier is copied into the ephemeral tier
    with the row's [expires] and the checksum the caller asked with, not the
    one stored in the row.  So a [get] without checksum that hits a row with
    a nonzero checksum leaves an ephemeral copy with checksum 0, and a later
    [get] with the matching nonzero checksum misses that copy and goes to
    the persistent tier again. *)
Theorem promotion_keeps_requested_checksum (endpoint : string) (json_data : bool)
    (o : Self) (w : World) (t : list row) (r : row) (p : pyval) :
  _exit o = false -> _win o = true -> _monitor o = true ->
  enable_mem_cache o = true ->
  quiet w -> store_of o w = Some t -> fetchone endpoint t = Some r ->
  let js := json_data || data_is_json o in
  let s := {| self := o; world := w |} in
  decode_text js (row_data r) = Val p ->
  (forall checksum cur_time : Z,
      valid cur_time checksum (row_expires r) (row_checksum r) = true ->
      exists s',
        _get_db_cache endpoint checksum cur_time json_data s = Ret p s' /\
        props (world s') !! endpoint =
          Some (encode js (PTuple [PInt (row_expires r); p; PInt checksum]))) /\
  (forall cs : string,
      no_global o ->
      truthy (default "" (props w !! endpoint)) = false ->
      clock w < row_expires r ->
      row_checksum r <> 0 ->
      _get_checksum o cs = Val (row_checksum r) ->
      exists s1,
        get endpoint "" json_data s = Ret p s1 /\
        props (world s1) !! endpoint =
          Some (encode js (PTuple [PInt (row_expires r); p; PInt 0])) /\
        _get_mem_cache endpoint (row_checksum r) (clock w) json_data s1 = Ret PNone s1 /\
        exists s2,
          get endpoint cs json_data s1 = Ret p s2 /\
          props (world s2) !! endpoint =
            Some (encode js (PTuple [PInt (row_expires r); p; PInt (row_checksum r)])) /\
          trace (world s2) =
            (trace w ++ [EvExecute (SelectById endpoint);
                         EvExecute (SelectById endpoint)])%list).
Proof.
  intros He Hw Hm Hmem Hq Ht Hr js s Hd. subst s. split.
  - intros checksum cur_time Hv.
    erewrite _get_db_cache_hit by done. eexists. split; [reflexivity|].
    simpl. rewrite Hmem. apply lookup_insert_eq.
  - intros cs Hg Hp Hc Hnz Hcs.
    assert (Hz : _get_checksum o "" = Val 0).
    { by apply _get_checksum_none. }
    assert (Hv0 : valid (clock w) 0 (row_expires r) (row_checksum r) = true).
    { unfold valid. simpl. rewrite andb_true_r. by apply Z.ltb_lt. }
    assert (Hv1 : valid (clock w) (row_checksum r) (row_expires r) (row_checksum r) = true).
    { unfold valid. rewrite Z.eqb_refl, orb_true_r, andb_true_r. by apply Z.ltb_lt. }
    assert (Hmiss : valid (clock w) (row_checksum r) (row_expires r) 0 = false).
    { unfold valid. apply Z.eqb_neq in Hnz. rewrite Hnz. simpl. apply andb_false_r. }
    destruct (entry_roundtrip js (row_expires r) 0 p (decoded_storable _ _ _ Hd))
      as (x & Hx & Hi).
    eexists. split; [|split; [|split]].
    + unfold get. mred. rewrite Hz, Hmem. mred. unfold _get_timestamp.
      rewrite _get_mem_cache_absent by done.
      erewrite _get_db_cache_hit by done. reflexivity.
    + simpl. rewrite Hmem. apply lookup_insert_eq.
    + erewrite _get_mem_cache_entry;
        [|done|simpl; rewrite ?Hmem; apply lookup_insert_eq|apply truthy_encode_tuple
         |exact Hx|exact Hi].
      by rewrite Hmiss.
    + unfold get. mred.
      change (_get_checksum (set_database true o) cs) with (_get_checksum o cs).
      rewrite Hcs. mred. rewrite Hmem. mred. unfold _get_timestamp.
      erewrite _get_mem_cache_entry;
        [|done|simpl; rewrite ?Hmem; apply lookup_insert_eq|apply truthy_encode_tuple
         |exact Hx|exact Hi].
      rewrite Hmiss.
      erewrite _get_db_cache_hit; try done; try (by eapply quiet_after).
      eexists. split; [reflexivity|]. simpl. rewrite ?Hmem. split.
      * apply lookup_insert_eq.
      * by rewrite <- app_assoc.
Qed.

Lemma promotion_keeps_requested_checksum_witness :
  let r := stored_row "k" 294 1060 false (PInt 7) in
  let s := {| self := fresh_self; world := set_db (Some [r]) empty_world |} in
  exists s1,
    get "k" "" false s = Ret (PInt 7) s1 /\
    props (world s1) !! "k" = Some "(1060, 7, 0)" /\
    _get_mem_cache "k" 294 1000 false s1 = Ret PNone s1 /\
    exists s2,
      get "k" "abc" false s1 = Ret (PInt 7) s2 /\
      props (world s2) !! "k" = Some "(1060, 7, 294)" /\
      trace (world s2) = [EvExecute (SelectById "k"); EvExecute (SelectById "k")].
Proof.
  intros r s.
  destruct (promotion_keeps_requested_checksum "k" false fresh_self
              (set_db (Some [r]) empty_world) [r] r (PInt 7))
    as (_ & H); try reflexivity.
  - repeat split.
  - apply (H "abc" I eq_refl); [simpl; lia|discriminate|reflexivity].
Defined.

(** C10: at the interface a cached [None] and a miss look the same: [get]
    answers [None] when neither tier has the key, and also when both hold a
    valid entry whose payload is [None].  An ephemeral entry whose payload
    reads back as [None] counts as a miss: [_get_mem_cache] returns [None]
    and [get] continues exactly as [_get_db_cache] does, so the persistent
    tier is queried although a fresh, valid ephemeral entry exists. *)
Theorem cached_none_is_a_miss (endpoint checksum : string) (json_data : bool)
    (o : Self) (w : World) (z : Z) :
  _win o = true -> enable_mem_cache o = true ->
  _get_checksum o checksum = Val z ->
  let js := json_data || data_is_json o in
  let s := {| self := o; world := w |} in
  (forall (text : string) (x : pyval) (e c : Z),
     props w !! endpoint = Some text ->
     truthy text = true ->
     decode_text js text = Val x ->
     items_of x = Some [PInt e; PNone; PInt c] ->
     valid (clock w) z e c = true ->
     _get_mem_cache endpoint z (clock w) json_data s = Ret PNone s /\
     get endpoint checksum json_data s = _get_db_cache endpoint z (clock w) json_data s /\
     (forall (t : list row) (r : row),
         _monitor o = true -> _exit o = false -> quiet w ->
         store_of o w = Some t -> fetchone endpoint t = Some r ->
         valid (clock w) z (row_expires r) (row_checksum r) = true ->
         decode_text js (row_data r) = Val PNone ->
         exists s',
           get endpoint checksum json_data s = Ret PNone s' /\
           trace (world s') = (trace w ++ [EvExecute (SelectById endpoint)])%list)) /\
  (forall t : list row,
     truthy (default "" (props w !! endpoint)) = false ->
     _monitor o = true -> _exit o = false -> quiet w ->
     store_of o w = Some t -> fetchone endpoint t = None ->
     exists s',
       get endpoint checksum json_data s = Ret PNone s' /\
       trace (world s') = (trace w ++ [EvExecute (SelectById endpoint)])%list).
Proof.
  intros Hw Hmem Hz js s. subst s.
  assert (Hget : forall v,
             _get_mem_cache endpoint z (clock w) json_data {| self := o; world := w |}
               = Ret v {| self := o; world := w |} ->
             v = PNone ->
             get endpoint checksum json_data {| self := o; world := w |} =
             _get_db_cache endpoint z (clock w) json_data {| self := o; world := w |}).
  { intros v Hv ->. unfold get. mred. rewrite Hz, Hmem. mred. unfold _get_timestamp.
    by rewrite Hv. }
  split.
  - intros text x e c Hp Ht Hd Hi Hv.
    assert (Hg : _get_mem_cache endpoint z (clock w) json_data {| self := o; world := w |}
                 = Ret PNone {| self := o; world := w |}).
    { erewrite _get_mem_cache_entry by done. by destruct (valid _ _ _ _). }
    split; [done|]. split; [by eapply Hget|].
    intros t r Hm He Hq Hs Hr Hvr Hdr. rewrite (Hget _ Hg eq_refl).
    erewrite _get_db_cache_hit by done. eexists. split; reflexivity.
  - intros t Hp Hm He Hq Hs Hr.
    rewrite (Hget PNone) by (by rewrite ?_get_mem_cache_absent).
    erewrite _get_db_cache_norow by done. eexists. split; reflexivity.
Qed.

Lemma cached_none_is_a_miss_witness :
  let r := stored_row "k" 0 1060 false PNone in
  let cached := {| self := fresh_self;
                   world := set_db (Some [r])
                              (set_props {[ "k" := "(1060, None, 0)" ]} empty_world) |} in
  let missing := {| self := fresh_self; world := set_db (Some []) empty_world |} in
  _get_mem_cache "k" 0 1000 false cached = Ret PNone cached /\
  (exists s', get "k" "" false cached = Ret PNone s' /\
              trace (world s') = [EvExecute (SelectById "k")]) /\
  (exists s', get "k" "" false missing = Ret PNone s' /\
              trace (world s') = [EvExecute (SelectById "k")]).
Proof.
  intros r cached missing.
  destruct (cached_none_is_a_miss "k" "" false fresh_self (world cached) 0
              eq_refl eq_refl eq_refl) as (H & _).
  destruct (H "(1060, None, 0)" (PTuple [PInt 1060; PNone; PInt 0]) 1060 0)
    as (Hm & _ & Hg); try reflexivity.
  destruct (cached_none_is_a_miss "k" "" false fresh_self (world missing) 0
              eq_refl eq_refl eq_refl) as (_ & H').
  split; [exact Hm|]. split.
  - apply (Hg [r] r); try reflexivity. repeat split.
  - apply (H' []); try reflexivity. repeat split.
Defined.

End GetSet.

(** ** Runs on concrete hosts *)

Section Runs.

Example repr_entry :
  py_repr (PTuple [PInt 1060; PList [PStr "ab"; PNone; PBool true]; PInt 294])
  = "(1060, ['ab', None, True], 294)".
Proof. reflexivity. Qed.

Example dumps_entry :
  json_dumps (PTuple [PInt 1060; PList [PInt (-3); PNone; PBool true]; PInt 294])
  = "[1060, [-3, null, true], 294]".
Proof. reflexivity. Qed.

Example eval_one_tuple : py_eval "(7,)" = Val (PTuple [PInt 7]).
Proof. reflexivity. Qed.

Example eval_parenthesis : py_eval "(7)" = Val (PInt 7).
Proof. reflexivity. Qed.

Example checksum_of_abc : _get_checksum fresh_self "abc" = Val 294.
Proof. reflexivity. Qed.

Example checksum_with_global : _get_checksum tagged_self "" = Val 213.
Proof. reflexivity. Qed.

(** A sweep that runs to its end: the expired row goes, both properties are
    cleared, the marker is cleared, the time of the run is recorded and the
    task is deregistered. *)
Example full_sweep :
  let old := stored_row "a" 0 500 false (PInt 1) in
  let young := stored_row "b" 0 2000 false (PInt 2) in
  let w := set_db (Some [old; young])
             (set_props {[ "a" := "(500, 1, 0)"; "b" := "(2000, 2, 0)" ]} empty_world) in
  exists s',
    _do_cleanup {| self := fresh_self; world := w |} = Ret tt s' /\
    db (world s') = Some [young] /\
    props (world s') = {[ "simplecache.clean.lastexecuted" := "1000" ]} /\
    busy_tasks (world s') = [] /\
    trace (world s') =
      [EvLog false "Skin Helper Simplecache --> Running cleanup...";
       EvExecute SelectAll;
       EvExecute (DeleteById "a");
       EvLog false "Skin Helper Simplecache --> delete from db a";
       EvExecute Vacuum;
       EvLog false "Skin Helper Simplecache --> Auto cleanup done"].
Proof.
  intros old young w.
  destruct (_do_cleanup {| self := fresh_self; world := w |}) as [[] s'| |] eqn:E;
    vm_compute in E; try discriminate E.
  exists s'. split; [reflexivity|]. injection E as <-. by vm_compute.
Qed.

(** A store that stays locked: [set] still returns, the ephemeral tier has
    the entry, the table is untouched, and the warning is logged after ten
    attempts. *)
Example set_on_locked_store :
  exists s',
    set "k" (PInt 7) "" 60 false {| self := fresh_self; world := contended 10 [] |}
      = Ret tt s' /\
    props (world s') !! "k" = Some "(1060, 7, 0)" /\
    db (world s') = Some [] /\
    sql_script (world s') = [] /\
    last (trace (world s')) = Some (warning_of locked).
Proof.
  destruct (set "k" (PInt 7) "" 60 false {| self := fresh_self; world := contended 10 [] |})
    as [[] s'| |] eqn:E; vm_compute in E; try discriminate E.
  exists s'. split; [reflexivity|]. injection E as <-. by vm_compute.
Qed.

(** After [close()] the handles are gone: [get] raises. *)
Example get_after_close_raises :
  exists s1 s2,
    close 0 fresh = Ret tt s1 /\ get "k" "" false s1 = Raise AttributeError s2.
Proof.
  eexists. destruct (get "k" "" false _) as [x s2|e s2|] eqn:E;
    [| exists s2; split; [reflexivity|] |]; vm_compute in E; try discriminate E.
  by injection E as <- <-.
Qed.

(** The constructor runs the sweep when the last one is more than four hours
    old.  If another sweep has left the marker behind, the constructor's
    task stays registered, and [close()] then waits for an abort that, here,
    never comes. *)
Example init_then_close_hangs :
  let w := set_clock 100000
             (set_props {[ "simplecache.clean.lastexecuted" := "1000";
                           "simplecachecleanbusy" := "busy" ]} empty_world) in
  exists s',
    __init__ {| self := fresh_self; world := w |} = Ret tt s' /\
    busy_tasks (world s') = [__name__] /\
    forall fuel, close fuel s' = Diverge.
Proof.
  intros w.
  destruct (__init__ {| self := fresh_self; world := w |}) as [[] s'| |] eqn:E;
    vm_compute in E; try discriminate E.
  exists s'. split; [reflexivity|]. injection E as <-. split; [reflexivity|].
  intros fuel. by apply close_diverges.
Qed.

End Runs.

(** * Further properties of the engine and of the decorator *)

Section Holds.

Lemma fetchone_other (k : string) (r : row) (t : list row) :
  row_id r <> k -> fetchone k (fst (run_sql (InsertOrReplace r) t)) = fetchone k t.
Proof.
  intros Hne. unfold fetchone. simpl. rewrite List.filter_app. simpl.
  apply String.eqb_neq in Hne. rewrite Hne, app_nil_r. f_equal.
  induction t as [|x t IH]; simpl; [done|].
  destruct (String.eqb (row_id x) (row_id r)) eqn:E; simpl.
  - apply String.eqb_eq in E. rewrite E, Hne. exact IH.
  - destruct (String.eqb (row_id x) k); simpl; by rewrite IH.
Qed.

(** What [get] answers on a state that holds an entry, and what it leaves
    of the state. *)
Lemma get_holds (k cs : string) (json_data : bool) (o : Self) (w : World)
    (data : pyval) (e zs zg : Z) :
  live o -> quiet w ->
  holds (json_data || data_is_json o) o w k data e zs ->
  storable (json_data || data_is_json o) data = true ->
  _get_checksum o cs = Val zg ->
  exists s',
    get k cs json_data {| self := o; world := w |} =
      Ret (if valid (clock w) zg e zs then data else PNone) s' /\
    (self s' = o \/ self s' = set_database true o) /\
    quiet (world s') /\ clock (world s') = clock w /\
    store_of (self s') (world s') = store_of o w /\
    busy_tasks (world s') = busy_tasks w.
Proof.
  intros (He & Hw & Hm) Hq (Hmemp & t & Ht & Hr) Hst Hz.
  set (js := json_data || data_is_json o) in *.
  pose proof (codec_roundtrip js data Hst) as Hv.
  unfold get. mred. rewrite Hz. mred. unfold _get_timestamp.
  assert (Hpost : forall p,
             quiet (set_props p (emit (EvExecute (SelectById k)) (set_db (Some t) w))) /\
             clock w = clock w /\
             store_of (set_database true o)
               (set_props p (emit (EvExecute (SelectById k)) (set_db (Some t) w)))
               = store_of o w /\
             busy_tasks w = busy_tasks w).
  { intros p. split; [exact Hq|]. split; [done|]. split; [by rewrite Ht|done]. }
  assert (Hdb : exists s', _get_db_cache k zg (clock w) json_data {| self := o; world := w |}
                  = Ret (if valid (clock w) zg e zs then data else PNone) s' /\
                (self s' = o \/ self s' = set_database true o) /\
                quiet (world s') /\ clock (world s') = clock w /\
                store_of (self s') (world s') = store_of o w /\
                busy_tasks (world s') = busy_tasks w).
  { erewrite _get_db_cache_row by done. cbv zeta. simpl. fold js.
    destruct (valid (clock w) zg e zs).
    2:{ eexists. split; [reflexivity|]. split; [by right|]. exact (Hpost (props w)). }
    rewrite Hv.
    destruct (enable_mem_cache o).
    2:{ eexists. split; [reflexivity|]. split; [by right|]. exact (Hpost (props w)). }
    unfold bind. rewrite _set_mem_cache_eq by done.
    eexists. split; [reflexivity|]. split; [by right|]. apply Hpost. }
  destruct (enable_mem_cache o) eqn:Hmem; [|exact Hdb].
  destruct (Hmemp eq_refl) as [Hp|Hp].
  2:{ by rewrite _get_mem_cache_absent. }
  destruct (entry_roundtrip js e zs data Hst) as (x & Hx & Hi).
  erewrite _get_mem_cache_entry;
    [|done|exact Hp|apply truthy_encode_tuple|exact Hx|exact Hi].
  destruct (valid (clock w) zg e zs) eqn:Hval.
  - destruct data; try (eexists; split; [reflexivity|]; split; [by left|done]).
    destruct Hdb as (s' & E & Hs'). rewrite ?Hval in E. by exists s'.
  - destruct Hdb as (s' & E & Hs'). rewrite ?Hval in E. by exists s'.
Qed.

(** [set] on a live engine: the state it leaves. *)
Lemma set_establishes (k : string) (data : pyval) (cs : string) (expiration : Z)
    (json_data : bool) (o : Self) (w : World) (t : list row) (zs : Z) :
  live o -> quiet w -> store_of o w = Some t ->
  in_datetime_range (clock w + expiration) ->
  _get_checksum o cs = Val zs ->
  exists w',
    set k data cs expiration json_data {| self := o; world := w |} =
      Ret tt {| self := set_database true o; world := w' |} /\
    quiet w' /\ clock w' = clock w /\ Permutation (busy_tasks w') (busy_tasks w) /\
    holds (json_data || data_is_json o) (set_database true o) w' k data
      (clock w + expiration) zs /\
    (forall js k' d e z, k' <> k ->
       holds js o w k' d e z -> holds js (set_database true o) w' k' d e z) /\
    db w' = Some (fst (run_sql (InsertOrReplace
                         (stored_row k zs (clock w + expiration)
                            (json_data || data_is_json o) data)) t)) /\
    (forall k', k' <> k -> props w' !! k' = props w !! k').
Proof.
  intros (He & Hw & Hm) Hq Ht Hrg Hz.
  destruct (set_live k data cs expiration json_data o w t zs) as (l & Hp & Hset);
    try done.
  eexists. split; [exact Hset|].
  split; [by eapply quiet_after|]. split; [done|]. split; [done|]. split; [|split].
  - split.
    + intros Hmem. change (enable_mem_cache o = true) in Hmem.
      cbn [props set_busy_tasks set_db emit set_props]. rewrite Hmem.
      left. apply lookup_insert_eq.
    + eexists. split; [reflexivity|]. by apply fetchone_replace.
  - intros js k' d e z Hne (Hmemp & t' & Ht' & Hr'). rewrite Ht in Ht'.
    injection Ht' as <-. split.
    + intros Hmem. change (enable_mem_cache o = true) in Hmem.
      cbn [props set_busy_tasks set_db emit set_props]. rewrite Hmem.
      rewrite lookup_insert_ne by done. by apply Hmemp.
    + eexists. split; [reflexivity|]. rewrite fetchone_other; done.
  - split; [reflexivity|]. intros k' Hne.
    cbn [props set_busy_tasks set_db emit set_props].
    destruct (enable_mem_cache o); [|done]. by rewrite lookup_insert_ne.
Qed.

Lemma get_absent (k cs : string) (json_data : bool) (o : Self) (w : World) :
  live o -> quiet w -> absent o w k ->
  exists t,
    store_of o w = Some t /\
    get k cs json_data {| self := o; world := w |} =
    Ret PNone {| self := set_database true o;
                 world := emit (EvExecute (SelectById k)) (set_db (Some t) w) |}.
Proof.
  intros (He & Hw & Hm) Hq (Hp & t & Ht & Hr). exists t. split; [done|].
  destruct (_get_checksum_total o cs) as [z Hz].
  unfold get. mred. rewrite Hz. mred. unfold _get_timestamp.
  destruct (enable_mem_cache o).
  - rewrite _get_mem_cache_absent by done. by erewrite _get_db_cache_norow.
  - by erewrite _get_db_cache_norow.
Qed.

End Holds.

Section Entries.








End Entries.

Section EntryLaws.

Lemma live_fresh : live fresh_self.
Proof. by repeat split. Qed.

Lemma quiet_empty : quiet empty_world.
Proof. by repeat split. Qed.













End EntryLaws.

Section Sweep.

Lemma abortRequested_quiet (o : Self) (w : World) :
  _monitor o = true -> quiet w ->
  abortRequested {| self := o; world := w |} = Ret false {| self := o; world := w |}.
Proof.
  intros Hm (Ha & Hb & _). unfold abortRequested, the_monitor. mred.
  rewrite Hm. mred. rewrite Ha. mred. by rewrite Hb.
Qed.






End Sweep.

Section CleanupLaws.










End CleanupLaws.

Section Schedule.










End Schedule.

Section Failures.

Lemma datetime_add_out_of_range (t d : Z) :
  ~ in_datetime_range (t + d) -> datetime_add t d = Exc OverflowError.
Proof.
  unfold in_datetime_range, datetime_add. intros H.
  destruct (datetime_min <=? t + d) eqn:E1; [|done].
  destruct (t + d <=? datetime_max) eqn:E2; [|done].
  apply Z.leb_le in E1, E2. exfalso. apply H. lia.
Qed.

(** X12: an expiry that [datetime] cannot represent makes [set] raise
    [OverflowError] before it writes anything, and after it has registered
    its task: the task stays in the busy list, and a later [close] on a host
    that never asks for an abort does not return. *)
Theorem set_overflow_leaks_task (endpoint : string) (data : pyval) (checksum : string)
    (expiration : Z) (json_data : bool) (o : Self) (w : World) :
  ~ in_datetime_range (clock w + expiration) ->
  let s' := {| self := o;
               world := set_busy_tasks (busy_tasks w ++ ["set." +:+ endpoint])%list w |} in
  set endpoint data checksum expiration json_data {| self := o; world := w |}
    = Raise OverflowError s' /\
  (_monitor o = true -> abort_script w = [] -> abort_tail w = false ->
   forall fuel, close fuel s' = Diverge).
Proof.
  intros Hr s'. split.
  - destruct (_get_checksum_total o checksum) as [z Hz].
    unfold set. mred. rewrite Hz. mred.
    by rewrite (datetime_add_out_of_range _ _ Hr).
  - intros Hm Ha Ht fuel. apply close_diverges; try done.
    cbn [busy_tasks set_busy_tasks]. by destruct (busy_tasks w).
Qed.

Lemma set_overflow_leaks_task_witness :
  set "k" (PInt 1) "" 400000000000 false fresh
    = Raise OverflowError
        {| self := fresh_self;
           world := set_busy_tasks ([] ++ ["set." +:+ "k"])%list empty_world |} /\
  (_monitor fresh_self = true -> abort_script empty_world = [] ->
   abort_tail empty_world = false ->
   forall fuel, close fuel
                  {| self := fresh_self;
                     world := set_busy_tasks ([] ++ ["set." +:+ "k"])%list empty_world |}
                = Diverge).
Proof.
  apply (set_overflow_leaks_task "k" (PInt 1) "" 400000000000 false fresh_self
           empty_world).
  unfold in_datetime_range. vm_compute. intros [_ H]. by apply H.
Defined.

Lemma close_returns (fuel : nat) (s s1 : State) :
  close fuel s = Ret tt s1 ->
  _win (self s1) = false /\ _monitor (self s1) = false /\
  _database (self s1) = false /\
  enable_mem_cache (self s1) = enable_mem_cache (self s).
Proof.
  destruct s as [o w]. rewrite close_eq.
  destruct (close_wait fuel _) as [[] [o1 w1]| |] eqn:E; try discriminate.
  apply close_wait_self in E. simpl in E. subst o1. simpl.
  destruct (_win o); [|discriminate]. destruct (_monitor o); [|discriminate].
  by intros [= <-].
Qed.

(** X13: after a completed [close], [get] raises [AttributeError] for every
    key.  With the ephemeral tier enabled it fails at the window; with it
    disabled it has by then opened the connection again. *)
Theorem get_after_close_raises_always (fuel : nat) (s s1 : State)
    (endpoint checksum : string) (json_data : bool) :
  close fuel s = Ret tt s1 ->
  exists s2,
    get endpoint checksum json_data s1 = Raise AttributeError s2 /\
    (enable_mem_cache (self s) = true -> s2 = s1) /\
    (enable_mem_cache (self s) = false -> _database (self s2) = true).
Proof.
  intros Hc. destruct (close_returns fuel s s1 Hc) as (Hw & Hm & Hd & Hmem).
  destruct s1 as [o1 w1]. cbn [self] in *.
  destruct (_get_checksum_total o1 checksum) as [z Hz].
  unfold get. mred. rewrite Hz. mred. rewrite Hmem.
  destruct (enable_mem_cache (self s)).
  - unfold _get_mem_cache. mred. rewrite Hw. mred. eexists. by repeat split.
  - unfold _get_db_cache, _execute_sql, _get_database. mred. rewrite Hd. mred.
    destruct (db w1); mred; rewrite Hm; mred; eexists; by repeat split.
Qed.

Lemma get_after_close_raises_always_witness :
  exists s2,
    get "k" "" false {| self := closed_self (set_exit true fresh_self);
                        world := emit closed_line empty_world |}
      = Raise AttributeError s2 /\
    (enable_mem_cache (self fresh) = true ->
     s2 = {| self := closed_self (set_exit true fresh_self);
             world := emit closed_line empty_world |}) /\
    (enable_mem_cache (self fresh) = false -> _database (self s2) = true).
Proof.
  apply (get_after_close_raises_always 0 fresh _ "k" "" false). reflexivity.
Defined.






Lemma json_loads_paren (rest : string) : json_loads (String "(" rest) = Exc ValueError.
Proof. reflexivity. Qed.

(** X16: the two encodings do not mix.  An entry written with [repr] and read
    back with [json_data=True] while it is still in the window makes [get]
    raise [ValueError], for every value: the stored text is the [repr] of a
    tuple, which is no JSON. *)
Theorem repr_entry_read_as_json_raises (endpoint : string) (data : pyval)
    (cs_set cs_get : string) (expiration : Z) (s : State) :
  live (self s) -> quiet (world s) -> is_Some (store_of (self s) (world s)) ->
  in_datetime_range (clock (world s) + expiration) ->
  enable_mem_cache (self s) = true -> data_is_json (self s) = false ->
  exists s',
    (set endpoint data cs_set expiration false ;;
     get endpoint cs_get true) s = Raise ValueError s'.
Proof.
  destruct s as [o w]. cbn [self world]. intros Hl Hq [t Ht] Hr Hmem Hjs.
  pose proof Hl as (He & Hw & Hm).
  destruct (_get_checksum_total o cs_set) as [zs Hzs].
  destruct (_get_checksum_total o cs_get) as [zg Hzg].
  destruct (set_live endpoint data cs_set expiration false o w t zs)
    as (l & _ & Hset); try done.
  unfold bind at 1. rewrite Hset. clear Hset. rewrite Hmem, Hjs.
  unfold get. mred.
  change (_get_checksum (set_database true o) cs_get) with (_get_checksum o cs_get).
  rewrite Hzg. mred. rewrite Hmem.
  unfold _get_mem_cache. mred. rewrite Hw. mred.
  rewrite lookup_insert_eq. cbn [default from_option id].
  change (py_repr (PTuple [PInt (clock w + expiration); data; PInt zs]))
    with (String "(" (join ", " (map (print_val false)
                                   [PInt (clock w + expiration); data; PInt zs]) +:+ ")")).
  cbn [truthy]. unfold decode. change (decode_text true) with json_loads.
  rewrite json_loads_paren. mred. by eexists.
Qed.

Lemma repr_entry_read_as_json_raises_witness :
  exists s',
    (set "k" (PInt 1) "" 60 false ;; get "k" "" true) fresh = Raise ValueError s'.
Proof.
  apply (repr_entry_read_as_json_raises "k" (PInt 1) "" "" 60 fresh).
  - exact live_fresh.
  - exact quiet_empty.
  - by exists [].
  - by vm_compute.
  - reflexivity.
  - reflexivity.
Defined.

End Failures.

Section Instances.






End Instances.

Section Lifecycle.

(** X24: a [set] that has run through leaves nothing registered: when no
    task was busy before it, a [close] right after it returns without a
    single wait; after the statement of [set] the trace only gains the
    closing line. *)
Theorem close_after_set_returns (endpoint : string) (data : pyval) (checksum : string)
    (expiration : Z) (json_data : bool) (s : State) :
  live (self s) -> quiet (world s) -> is_Some (store_of (self s) (world s)) ->
  in_datetime_range (clock (world s) + expiration) ->
  busy_tasks (world s) = [] ->
  exists s' q,
    (set endpoint data checksum expiration json_data ;; close 0) s = Ret tt s' /\
    _exit (self s') = true /\ _database (self s') = false /\
    busy_tasks (world s') = [] /\
    trace (world s') = (trace (world s) ++ [EvExecute q; closed_line])%list.
Proof.
  destruct s as [o w]. cbn [self world]. intros Hl Hq [t Ht] Hr Hb.
  pose proof Hl as (He & Hw & Hm).
  destruct (_get_checksum_total o checksum) as [z Hz].
  destruct (set_live endpoint data checksum expiration json_data o w t z)
    as (l & Hp & Hset); [exact He|exact Hw|exact Hm|exact Hq|exact Ht|exact Hz|exact Hr|].
  rewrite Hb in Hp. apply Permutation_nil_r in Hp. subst l.
  unfold bind at 1. rewrite Hset. rewrite close_eq.
  cbn [close_wait busy_tasks set_busy_tasks world self].
  change (_win (set_exit true (set_database true o))) with (_win o).
  change (_monitor (set_exit true (set_database true o))) with (_monitor o).
  rewrite Hw, Hm.
  eexists. eexists. split; [reflexivity|]. cbn [self world].
  split; [reflexivity|]. split; [reflexivity|]. split; [reflexivity|].
  cbn [trace emit set_busy_tasks set_db set_props]. by rewrite <- app_assoc.
Qed.

Lemma close_after_set_returns_witness :
  exists s' q,
    (set "k" (PInt 1) "" 60 false ;; close 0) fresh = Ret tt s' /\
    _exit (self s') = true /\ _database (self s') = false /\
    busy_tasks (world s') = [] /\
    trace (world s') = (trace (world fresh) ++ [EvExecute q; closed_line])%list.
Proof.
  apply (close_after_set_returns "k" (PInt 1) "" 60 false fresh).
  - exact live_fresh.
  - exact quiet_empty.
  - by exists [].
  - by vm_compute.
  - reflexivity.
Defined.

End Lifecycle.

Section Decorator.

Lemma py_lower_app (a b : string) : py_lower (a +:+ b) = py_lower a +:+ py_lower b.
Proof. induction a as [|c a IH]; simpl; [done|]. by rewrite IH. Qed.

Lemma py_lower_char_idem (c : ascii) : py_lower_char (py_lower_char c) = py_lower_char c.
Proof. destruct c as [[] [] [] [] [] [] [] []]; reflexivity. Qed.

Lemma py_lower_idem (s : string) : py_lower (py_lower s) = py_lower s.
Proof. induction s as [|c s IH]; simpl; [done|]. by rewrite py_lower_char_idem, IH. Qed.

Lemma append_items_app (a : string) (items more : list pyval) :
  append_items a (items ++ more)%list =
  match append_items a items with
  | Val b => append_items b more
  | Exc e => Exc e
  end.
Proof.
  revert a. induction items as [|x items IH]; intros a; simpl; [done|].
  destruct (format_item x); [apply IH|done].
Qed.

(** The key of a call whose arguments are all strings. *)
Lemma cache_key_strings (c f : string) (l : list string) :
  cache_key c f (map PStr l) =
  Val (py_lower (fold_left (fun a x => a +:+ "." +:+ x) l (c +:+ "." +:+ f))).
Proof.
  unfold cache_key. generalize (c +:+ "." +:+ f). clear c f.
  induction l as [|x l IH]; intros a; simpl; [done|]. apply IH.
Qed.


Lemma py_lower_fold (l : list string) (a a' : string) :
  py_lower a = py_lower a' ->
  py_lower (fold_left (fun a x => a +:+ "." +:+ x) l a) =
  py_lower (fold_left (fun a x => a +:+ "." +:+ x) (map py_lower l) a').
Proof.
  revert a a'. induction l as [|x l IH]; intros a a' H; simpl; [done|].
  apply IH. rewrite !py_lower_app, py_lower_idem. by rewrite H.
Qed.

(** X17: what the key of the decorator does not tell apart.  The key is the
    lower-cased, dot-joined text of the class name, the function name and the
    arguments, so it is blind to letter case, to whether a dot separates two
    arguments or sits inside one, and to whether an argument is a number or
    the text of that number. *)
Theorem cache_key_collisions (c f : string) :
  (forall l : list string,
     cache_key c f (map PStr l) =
     cache_key (py_lower c) (py_lower f) (map PStr (map py_lower l))) /\
  (forall (pre rest : list pyval) (a b : string),
     cache_key c f (pre ++ PStr (a +:+ "." +:+ b) :: rest)%list =
     cache_key c f (pre ++ PStr a :: PStr b :: rest)%list) /\
  (forall (pre rest : list pyval) (n : Z),
     cache_key c f (pre ++ PInt n :: rest)%list =
     cache_key c f (pre ++ PStr (print_int n) :: rest)%list).
Proof.
  split; [|split].
  - intros l. rewrite !cache_key_strings. f_equal. apply py_lower_fold.
    by rewrite !py_lower_app, !py_lower_idem.
  - intros pre rest a b. unfold cache_key. rewrite !append_items_app.
    destruct (append_items _ pre) as [acc|e]; [|done]. simpl.
    by rewrite !append_assoc.
  - intros pre rest n. unfold cache_key. rewrite !append_items_app.
    by destruct (append_items _ pre) as [acc|e].
Qed.

Lemma cache_key_tuple (c f : string) (args : list pyval) (l : list pyval) :
  PTuple l ∈ args -> length l <> 1%nat -> cache_key c f args = Exc TypeError.
Proof.
  intros Hin Hl. unfold cache_key.
  assert (H : forall a, append_items a args = Exc TypeError); [|by rewrite H].
  induction args as [|x args IH]; intros a; [by apply elem_of_nil in Hin|].
  simpl. apply elem_of_cons in Hin as [<-|Hin].
  - destruct l as [|y [|z l]]; done.
  - destruct (format_item x) as [p|e] eqn:E; [by apply IH|].
    destruct x as [| | | | |[|y [|z l']]]; simpl in E; congruence.
Qed.

(** X18: a positional argument that is a tuple of no or of several elements
    makes the decorated call raise [TypeError] while the key is built: the
    cache is not consulted and the wrapped function is not called. *)
Theorem tuple_argument_raises (cache_days : Z) (func_name : string)
    (func : list pyval -> M pyval) (method_class : Caller) (args : list pyval)
    (ignore_cache_kw : bool) (l : list pyval) (s : State) :
  PTuple l ∈ args -> length l <> 1%nat ->
  use_cache cache_days func_name func method_class args ignore_cache_kw s
    = Raise TypeError s.
Proof.
  intros Hin Hl. unfold use_cache.
  by rewrite (cache_key_tuple _ _ args l Hin Hl).
Qed.

Lemma tuple_argument_raises_witness :
  use_cache 14 "f" (fun _ => ret PNone) {| class_name := "C"; ignore_cache := None |}
    [PInt 1; PTuple [PInt 2; PInt 3]] false fresh
    = Raise TypeError fresh.
Proof.
  apply (tuple_argument_raises 14 "f" (fun _ => ret PNone)
           {| class_name := "C"; ignore_cache := None |}
           [PInt 1; PTuple [PInt 2; PInt 3]] false [PInt 2; PInt 3] fresh).
  - apply elem_of_cons. right. apply elem_of_cons. by left.
  - simpl. lia.
Defined.

(** A decorated call that goes to the wrapped function. *)
Lemma use_cache_computes (cache_days : Z) (func_name : string)
    (func : list pyval -> M pyval) (method_class : Caller) (args : list pyval)
    (ignore_cache_kw : bool) (o : Self) (w : World) (k : string) (r v : pyval)
    (s1 : State) (t : list row) (z : Z) :
  live o -> store_of o w = Some t ->
  cache_key (class_name method_class) func_name args = Val k ->
  get k "" false {| self := o; world := w |} = Ret v s1 ->
  (self s1 = o \/ self s1 = set_database true o) ->
  quiet (world s1) -> clock (world s1) = clock w ->
  store_of (self s1) (world s1) = Some t ->
  is_none v || ignore_cache_kw || default false (ignore_cache method_class) = true ->
  (forall st, func args st = Ret r st) ->
  -999999999 <= cache_days <= 999999999 ->
  in_datetime_range (clock w + cache_days * 86400) ->
  _get_checksum o "" = Val z ->
  exists w',
    use_cache cache_days func_name func method_class args ignore_cache_kw
      {| self := o; world := w |} = Ret r {| self := set_database true o; world := w' |} /\
    quiet w' /\ clock w' = clock w /\
    is_Some (store_of (set_database true o) w') /\
    holds (data_is_json o) (set_database true o) w' k r
      (clock w + cache_days * 86400) z.
Proof.
  intros Hl Ht Hk Hget Hself Hq1 Hc1 Hs1 Hcomp Hf Hdays Hr Hz.
  unfold use_cache. rewrite Hk. unfold lift at 1. unfold bind at 1. unfold ret at 1.
  unfold bind at 1. rewrite Hget.
  replace (negb (is_none v) && negb ignore_cache_kw &&
           negb (default false (ignore_cache method_class))) with false.
  2:{ symmetry. rewrite <- !negb_orb. by rewrite Hcomp. }
  unfold bind at 1. rewrite Hf.
  unfold timedelta_days.
  replace ((-999999999 <=? cache_days) && (cache_days <=? 999999999)) with true.
  2:{ symmetry. apply andb_true_iff. split; apply Z.leb_le; lia. }
  unfold lift at 1. unfold bind at 1. unfold ret at 1.
  destruct s1 as [o1 w1]. cbn [self world] in *.
  assert (Hl1 : live o1) by (destruct Hself as [->| ->]; exact Hl).
  assert (Hz1 : _get_checksum o1 "" = Val z) by (destruct Hself as [->| ->]; exact Hz).
  destruct (set_establishes k r "" (cache_days * 86400) false o1 w1 t z)
    as (w' & Hset & Hq' & Hc' & _ & Hh & _ & Hd & _); rewrite ?Hc1; try done.
  unfold bind at 1. rewrite Hset. unfold ret.
  assert (Ho : set_database true o1 = set_database true o)
    by (destruct Hself as [->| ->]; reflexivity).
  assert (Hj : data_is_json o1 = data_is_json o)
    by (destruct Hself as [->| ->]; reflexivity).
  rewrite Ho, Hc1, Hj in *. cbn [orb] in Hh.
  exists w'. split; [reflexivity|]. split; [done|]. split; [by rewrite Hc'|].
  split; [|exact Hh].
  unfold store_of. rewrite Hd. by eexists.
Qed.



Lemma absent_fresh (k : string) : absent fresh_self empty_world k.
Proof. split; [done|]. by exists []. Qed.

(** The first decorated call on a cache that has nothing under the key. *)
Lemma use_cache_first (cache_days : Z) (func_name : string)
    (func : list pyval -> M pyval) (method_class : Caller) (args : list pyval)
    (ignore_cache_kw : bool) (o : Self) (w : World) (k : string) (r : pyval) (z : Z) :
  live o -> quiet w -> absent o w k ->
  cache_key (class_name method_class) func_name args = Val k ->
  (forall st, func args st = Ret r st) ->
  -999999999 <= cache_days <= 999999999 ->
  in_datetime_range (clock w + cache_days * 86400) ->
  _get_checksum o "" = Val z ->
  exists w',
    use_cache cache_days func_name func method_class args ignore_cache_kw
      {| self := o; world := w |} = Ret r {| self := set_database true o; world := w' |} /\
    quiet w' /\ clock w' = clock w /\
    is_Some (store_of (set_database true o) w') /\
    holds (data_is_json o) (set_database true o) w' k r
      (clock w + cache_days * 86400) z.
Proof.
  intros Hl Hq Ha Hk Hf Hd Hr Hz.
  destruct (get_absent k "" false o w Hl Hq Ha) as (t & Ht & Hget).
  apply (use_cache_computes cache_days func_name func method_class args
           ignore_cache_kw o w k r PNone _ t z Hl Ht Hk Hget); try done.
  by right.
Qed.



(** X20: a result of [None] is stored but never served: the next call at the
    same key goes to its wrapped function again and returns what that
    returns. *)
Theorem none_result_is_recomputed (cache_days : Z) (func_name name' : string)
    (func func' : list pyval -> M pyval) (method_class caller' : Caller)
    (args args' : list pyval) (kw kw' : bool) (s : State) (k : string)
    (r' : pyval) (later : Z) :
  live (self s) -> quiet (world s) -> absent (self s) (world s) k ->
  cache_key (class_name method_class) func_name args = Val k ->
  cache_key (class_name caller') name' args' = Val k ->
  (forall st, func args st = Ret PNone st) ->
  (forall st, func' args' st = Ret r' st) ->
  -999999999 <= cache_days <= 999999999 ->
  in_datetime_range (clock (world s) + cache_days * 86400) ->
  in_datetime_range (later + cache_days * 86400) ->
  exists s',
    (use_cache cache_days func_name func method_class args kw ;;
     modify_world (set_clock later) ;;
     use_cache cache_days name' func' caller' args' kw') s = Ret r' s'.
Proof.
  destruct s as [o w]. cbn [self world].
  intros Hl Hq Ha Hk Hk' Hf Hf' Hd Hrg Hrg'.
  destruct (_get_checksum_total o "") as [z Hz].
  destruct (use_cache_first cache_days func_name func method_class args
              kw o w k PNone z) as (w' & E & Hq' & Hc' & [t' Ht'] & Hh); try done.
  unfold bind at 1. rewrite E. unfold bind at 1. unfold modify_world at 1.
  unfold with_world. cbn [self world].
  destruct (get_holds k "" false (set_database true o) (set_clock later w') PNone
              (clock w + cache_days * 86400) z z)
    as (s1 & Hget & Hself & Hq1 & Hc1 & Hs1 & _); try done.
  { cbn [orb]. by destruct (data_is_json _). }
  destruct (use_cache_computes cache_days name' func' caller' args' kw'
              (set_database true o) (set_clock later w') k r'
              (if valid (clock (set_clock later w')) z (clock w + cache_days * 86400) z
               then PNone else PNone) s1 t' z) as (w2 & E2 & _); try done.
  - by rewrite Hs1.
  - by destruct (valid _ _ _ _).
  - by eexists.
Qed.

Lemma none_result_is_recomputed_witness :
  exists s',
    (use_cache 14 "f" (fun _ => ret PNone)
       {| class_name := "C"; ignore_cache := None |} [PInt 1] false ;;
     modify_world (set_clock 2000) ;;
     use_cache 14 "f" (fun _ => ret (PInt 7))
       {| class_name := "C"; ignore_cache := None |} [PInt 1] false) fresh
    = Ret (PInt 7) s'.
Proof.
  apply (none_result_is_recomputed 14 "f" "f" (fun _ => ret PNone)
           (fun _ => ret (PInt 7))
           {| class_name := "C"; ignore_cache := None |}
           {| class_name := "C"; ignore_cache := None |}
           [PInt 1] [PInt 1] false false fresh "c.f.1" (PInt 7) 2000).
  - exact live_fresh.
  - exact quiet_empty.
  - apply absent_fresh.
  - reflexivity.
  - reflexivity.
  - reflexivity.
  - reflexivity.
  - lia.
  - by vm_compute.
  - by vm_compute.
Defined.



End Decorator.

